(** * gftools add-designer: the designer-record synchronisation routine

  A shallow embedding of [bin/gftools-add-designer.py] and the properties
  its specification states about it.

  Python [str] values are sequences of Unicode code points; they are
  embedded as lists of [N].  The interpreter's built-in string methods
  ([split], [replace], [startswith], [join]) are written out; the case
  tables behind [str.lower], the image codec and the host's text encoding
  are interfaces (type classes) with a small reference instance used to
  run the program on concrete inputs. *)

From Stdlib Require Import ZArith NArith Ascii String List Lia Bool.
From stdpp Require Import base option list gmap strings.

Local Open Scope N_scope.
Local Open Scope list_scope.

(** ** Python strings *)

Abbreviation pystr := (list N) (only parsing).

(** A string literal of the source, as code points. *)
Definition py (s : string) : pystr := map N_of_ascii (list_ascii_of_string s).

Arguments py : simpl never.

Module Str.

(** [s.startswith(prefix)] *)
Fixpoint startswith (s prefix : pystr) {struct prefix} : bool :=
  match prefix, s with
  | [], _ => true
  | p :: prefix', c :: s' => (p =? c) && startswith s' prefix'
  | _ :: _, [] => false
  end.

(** [s.partition(sep)] for a separator that occurs: the text before the
    leftmost occurrence of [sep] and the text after it; [None] when [sep]
    does not occur. *)
Fixpoint partition (s sep : pystr) : option (pystr * pystr) :=
  if startswith s sep then Some ([], drop (length sep) s)
  else match s with
       | [] => None
       | c :: s' =>
           match partition s' sep with
           | Some (a, b) => Some (c :: a, b)
           | None => None
           end
       end.

(** [s.split(sep)]: cut at the leftmost, non-overlapping occurrences of
    [sep].  Each cut consumes at least one code point when [sep] is not
    empty, so [length s] rounds are enough.  The program only splits at
    [//]; Python refuses an empty separator, which is not modelled. *)
Fixpoint split_fuel (fuel : nat) (s sep : pystr) : list pystr :=
  match fuel with
  | O => [s]
  | S fuel' =>
      match partition s sep with
      | None => [s]
      | Some (a, b) => a :: split_fuel fuel' b sep
      end
  end.

Definition split (s sep : pystr) : list pystr := split_fuel (length s) s sep.

(** [s.replace(old, new)]: every leftmost, non-overlapping occurrence of
    [old] gives way to [new]; an empty [old] matches between code points. *)
Fixpoint replace_fuel (fuel : nat) (s old new : pystr) : pystr :=
  match fuel with
  | O => s
  | S fuel' =>
      match partition s old with
      | None => s
      | Some (a, b) => a ++ new ++ replace_fuel fuel' b old new
      end
  end.

Definition replace (s old new : pystr) : pystr :=
  match old with
  | [] => new ++ flat_map (fun c => c :: new) s
  | _ :: _ => replace_fuel (length s) s old new
  end.

(** [sep.join(parts)] *)
Fixpoint join (sep : pystr) (parts : list pystr) : pystr :=
  match parts with
  | [] => []
  | [x] => x
  | x :: rest => x ++ sep ++ join sep rest
  end.

(** [c.isspace()]: the code points [str.split()] treats as separators. *)
Definition isspace (c : N) : bool :=
  ((9 <=? c) && (c <=? 13)) || ((28 <=? c) && (c <=? 32))
  || (c =? 133) || (c =? 160) || (c =? 5760)
  || ((8192 <=? c) && (c <=? 8202))
  || (c =? 8232) || (c =? 8233) || (c =? 8239) || (c =? 8287) || (c =? 12288).

(** [s.split()] with no separator: the maximal runs free of whitespace,
    in order; [cur] holds the run being read, latest code point first. *)
Fixpoint split_ws_go (cur s : pystr) : list pystr :=
  match s with
  | [] => match cur with [] => [] | _ :: _ => [rev cur] end
  | c :: s' =>
      if isspace c
      then match cur with
           | [] => split_ws_go [] s'
           | _ :: _ => rev cur :: split_ws_go [] s'
           end
      else split_ws_go (c :: cur) s'
  end.

Definition split_ws (s : pystr) : list pystr := split_ws_go [] s.

End Str.

(** [str.lower] follows the interpreter's Unicode case tables, which are not
  part of the program: it is an interface. *)
Class Unicode := { str_lower : pystr -> pystr }.

(** What the case tables guarantee and the program relies on: a string made
  of code points that occur in lower-cased text is already lower case. *)
Definition lower_stable `{Unicode} : Prop :=
  forall s t : pystr, t ⊆ str_lower s -> str_lower t = t.

(** The case tables on the ASCII range: [A]..[Z] map to [a]..[z]. *)
Definition ascii_lower_cp (c : N) : N :=
  if (65 <=? c) && (c <=? 90) then c + 32 else c.

Definition ascii_lower (s : pystr) : pystr := map ascii_lower_cp s.

#[export] Instance ascii_tables : Unicode := {| str_lower := ascii_lower |}.

(** ** [os.path] (posixpath) *)

Module Path.

Definition sep : N := 47.

(** [a.endswith("/")] *)
Definition ends_with_sep (a : pystr) : bool :=
  match last a with
  | Some c => c =? sep
  | None => false
  end.

(** [os.path.join(a, b)]: an absolute [b] replaces [a]; otherwise the two
    are joined with exactly one separator between them. *)
Definition join (a b : pystr) : pystr :=
  if Str.startswith b [sep] then b
  else match a with
       | [] => a ++ b
       | _ :: _ => if ends_with_sep a then a ++ b else a ++ [sep] ++ b
       end.

(** [p.rfind("/")], scanning with the index [i] of the code point read and
    the last hit so far. *)
Fixpoint rfind_go (s : pystr) (i last_hit : Z) : Z :=
  match s with
  | [] => last_hit
  | c :: s' => rfind_go s' (i + 1)%Z (if c =? sep then i else last_hit)
  end.

Definition rfind_sep (p : pystr) : Z := rfind_go p 0%Z (-1)%Z.

(** [os.path.basename(p)]: [i = p.rfind("/") + 1; return p[i:]] *)
Definition basename (p : pystr) : pystr :=
  drop (Z.to_nat (rfind_sep p + 1)) p.

(** [head.rstrip("/")] *)
Fixpoint lstrip_sep (s : pystr) : pystr :=
  match s with
  | c :: s' => if c =? sep then lstrip_sep s' else s
  | [] => []
  end.

Definition rstrip_sep (s : pystr) : pystr := rev (lstrip_sep (rev s)).

(** [os.path.dirname(p)]: the text up to the last separator, without its
    trailing separators unless it consists of separators only. *)
Definition dirname (p : pystr) : pystr :=
  let head := take (Z.to_nat (rfind_sep p + 1)) p in
  match head with
  | [] => head
  | _ :: _ => if forallb (N.eqb sep) head then head else rstrip_sep head
  end.

End Path.

(** ** The host: files, console, exceptions *)

Inductive node :=
| Dir
| File (content : list N).

#[export] Instance node_eq_dec : EqDecision node.
Proof. solve_decision. Defined.

Record world := World { fs : gmap pystr node; stdout : list pystr }.

Inductive exn :=
| ValueError (msg : pystr)
| IndexError
| UnboundLocalError (var : string)
| FileExistsError (path : pystr)
| FileNotFoundError (path : pystr)
| NotADirectoryError (path : pystr)
| IsADirectoryError (path : pystr)
| UnidentifiedImageError (path : pystr)
| AttributeError.

Inductive outcome (A : Type) :=
| Ok (a : A)
| Raise (e : exn).

Arguments Ok {A} a.
Arguments Raise {A} e.

(** A Python computation: it reads and updates the world and either returns
    or raises; what it did before raising stays done. *)
Definition Py (A : Type) : Type := world -> outcome A * world.

Definition ret {A} (a : A) : Py A := fun w => (Ok a, w).

Definition raise {A} (e : exn) : Py A := fun w => (Raise e, w).

Definition bind {A B} (c : Py A) (k : A -> Py B) : Py B :=
  fun w =>
    match c w with
    | (Ok a, w') => k a w'
    | (Raise e, w') => (Raise e, w')
    end.

Declare Scope py_scope.
Delimit Scope py_scope with py.
Notation "x <- c ;; k" := (bind c (fun x => k))
  (at level 100, c at next level, right associativity) : py_scope.
Notation "c ;; k" := (bind c (fun _ => k))
  (at level 100, right associativity) : py_scope.

(** A pure computation that may raise, run inside [Py]. *)
Definition lift {A} (o : outcome A) : Py A := fun w => (o, w).

(** [print(s)] *)
Definition print (s : pystr) : Py unit :=
  fun w => (Ok tt, {| fs := fs w; stdout := stdout w ++ [s] |}).

(** What a path names.  Paths name files by their spelling: the model has no
    links, no [.] and [..] resolution, and the empty path names nothing.  A
    path that ends in a slash is a key of its own: it is not looked up as
    the directory before the slash, as the system does.  What is stated of
    [os.mkdir] failing is stated for paths that do not end in a slash. *)
Definition stat (m : gmap pystr node) (p : pystr) : option node :=
  match p with
  | [] => None
  | _ :: _ => m !! p
  end.

(** [os.path.isfile(p)] *)
Definition isfile (p : pystr) : Py bool :=
  fun w => (Ok (match stat (fs w) p with Some (File _) => true | _ => false end), w).

(** [os.path.isdir(p)] *)
Definition isdir (p : pystr) : Py bool :=
  fun w => (Ok (match stat (fs w) p with Some Dir => true | _ => false end), w).

(** The directory a new entry [p] goes into must exist; an empty directory
    part is the current directory.  The directory is taken to be
    [os.path.dirname p], which it is when [p] does not end in a slash. *)
Definition check_parent (p : pystr) : Py unit :=
  fun w =>
    match Path.dirname p with
    | [] => (Ok tt, w)
    | d =>
        match stat (fs w) d with
        | Some Dir => (Ok tt, w)
        | Some (File _) => (Raise (NotADirectoryError p), w)
        | None => (Raise (FileNotFoundError p), w)
        end
    end.

Definition set_node (p : pystr) (n : node) : Py unit :=
  fun w => (Ok tt, {| fs := <[p := n]> (fs w); stdout := stdout w |}).

(** [os.mkdir(p)] *)
Definition mkdir (p : pystr) : Py unit :=
  fun w =>
    match p with
    | [] => (Raise (FileNotFoundError p), w)
    | _ :: _ =>
        match stat (fs w) p with
        | Some _ => (Raise (FileExistsError p), w)
        | None => bind (check_parent p) (fun _ => set_node p Dir) w
        end
    end.

(** Opening [p] for writing and writing [data]: the whole file is replaced. *)
Definition write_bytes (p : pystr) (data : list N) : Py unit :=
  fun w =>
    match p with
    | [] => (Raise (FileNotFoundError p), w)
    | _ :: _ =>
        match stat (fs w) p with
        | Some Dir => (Raise (IsADirectoryError p), w)
        | _ => bind (check_parent p) (fun _ => set_node p (File data)) w
        end
    end.

(** Text files are written in the host's encoding. *)
Class Host := { encode_text : pystr -> list N }.

(** [with open(p, "w") as f: f.write(text)] *)
Definition write_text `{Host} (p : pystr) (text : pystr) : Py unit :=
  write_bytes p (encode_text text).


(** ** Pillow *)

Record image := Image { im_width : Z; im_height : Z; im_data : list N }.

(** The codec and the resampling filter are the imaging library's.
    [decode] gives the image a file's bytes hold when the library reads
    them in full: it identifies the format and the pixel data load. *)
Class Pillow := {
  decode : list N -> option image;
  resample : image -> Z -> Z -> list N;
  encode_png : image -> list N
}.

Module Pil.

(** Modelled from the spec: [Image.thumbnail] is the imaging library's and
    is not under src/.  The spec describes it as the standard bounding-box
    downscale that keeps the aspect ratio and never upscales.  The scaled
    side is the exact quotient rounded down or up, whichever keeps the
    aspect ratio closer (down on a tie), and at least one pixel; exact
    integer arithmetic stands for the library's floating point. *)
Definition round_aspect_w (w h y : Z) : Z :=
  let n0 := (y * w / h)%Z in
  let r := ((y * w) mod h)%Z in
  Z.max (if (r <=? h - r)%Z then n0 else n0 + 1)%Z 1%Z.

(** Modelled from the spec: the same rounding for the height, where the
    library compares the two candidates by the aspect ratio they give and
    takes the lower one when it is zero. *)
Definition round_aspect_h (w h x : Z) : Z :=
  let n0 := (x * h / w)%Z in
  let r := ((x * h) mod w)%Z in
  Z.max (if (r =? 0)%Z || (n0 =? 0)%Z || (r * (n0 + 1) <=? (w - r) * n0)%Z
         then n0 else n0 + 1)%Z 1%Z.

(** Modelled from the spec: the size [Image.thumbnail] gives an image of
    size [size] for the bounding box [box]; an image that fits the box keeps
    its size, otherwise the side that overflows most becomes the box's and
    the other one is scaled by the same ratio. *)
Definition thumbnail_size (box size : Z * Z) : Z * Z :=
  let '(x, y) := box in
  let '(w, h) := size in
  if ((w <=? x) && (h <=? y))%Z then (w, h)
  else if (w * y <=? x * h)%Z then (round_aspect_w w h y, y)
  else (x, round_aspect_h w h x).

Definition size (img : image) : Z * Z := (im_width img, im_height img).

(** [img.thumbnail(box)] on a loaded image: the image is resampled only
    when its size changes. *)
Definition thumbnail `{Pillow} (box : Z * Z) (img : image) : image :=
  let '(w', h') := thumbnail_size box (size img) in
  if ((w' =? im_width img) && (h' =? im_height img))%Z then img
  else {| im_width := w'; im_height := h'; im_data := resample img w' h' |}.

(** [Image.open(fp)], with the loading of the pixel data.  The library
    reads the header here and puts the data off until they are used, in
    [thumbnail]; a file whose header it accepts and whose data do not load
    makes it raise there, after the lines of [process_image] are printed.
    Here such a file raises at once.  The two agree on every call that
    returns and on the files of every call; nothing is stated of what a call
    has printed when reading the image fails. *)
Definition open `{Pillow} (fp : pystr) : Py image :=
  fun w =>
    match stat (fs w) fp with
    | Some (File content) =>
        match decode content with
        | Some img => (Ok img, w)
        | None => (Raise (UnidentifiedImageError fp), w)
        end
    | Some Dir => (Raise (IsADirectoryError fp), w)
    | None => (Raise (FileNotFoundError fp), w)
    end.

(** [img.save(fp)] when the library can write the image as PNG under that
    name: the file then holds the encoded image.  The library raises for a
    name whose extension it does not know and for an image mode that PNG
    cannot hold; those calls are not modelled. *)
Definition save `{Pillow} (img : image) (fp : pystr) : Py unit :=
  write_bytes fp (encode_png img).

End Pil.

(** ** Protocol buffers: [designers_pb2] and [text_format] *)

(** Modelled from the spec: the message types of [gftools.designers_pb2]
    are generated code that is not under src/.  The spec gives the record's
    shape: [designer], [link] and a nested [avatar] with [file_name], in
    that order; a field is set or not. *)
Record AvatarProto := { pb_file_name : option pystr }.

(** Modelled from the spec: the record with fields [designer], [link] and
    [avatar], see [AvatarProto]. *)
Record DesignerInfoProto := {
  pb_designer : option pystr;
  pb_link : option pystr;
  pb_avatar : option AvatarProto
}.

(** A message as [text_format] walks it: its set fields, each a string or a
    nested message. *)
#[warnings="-register-all"]
Inductive pbvalue :=
| PbString (s : pystr)
| PbMessage (fields : list (pystr * pbvalue)).

(** How [text_format] escapes one code point of a string field. *)
Class TextFormat := { cescape_cp : N -> pystr }.

Module Pb.

Definition cescape `{TextFormat} (s : pystr) : pystr := flat_map cescape_cp s.

Definition some_field (name : string) (v : option pbvalue)
  : list (pystr * pbvalue) :=
  match v with
  | Some x => [(py name, x)]
  | None => []
  end.

Definition avatar_fields (a : AvatarProto) : list (pystr * pbvalue) :=
  some_field "file_name" (PbString <$> pb_file_name a).

(** Modelled from the spec: the set fields of a [DesignerInfoProto] in the
    stable order the spec gives ([use_index_order=True], the order of
    declaration): [designer], [link], [avatar]. *)
Definition info_fields (m : DesignerInfoProto) : list (pystr * pbvalue) :=
  some_field "designer" (PbString <$> pb_designer m)
  ++ some_field "link" (PbString <$> pb_link m)
  ++ some_field "avatar" ((fun a => PbMessage (avatar_fields a)) <$> pb_avatar m).

Definition spaces (n : nat) : pystr := repeat 32 n.

(** Modelled from the spec: the human-readable text encoding of one field
    at an indentation, [name: "value"] or [name { ... }], each on lines of
    its own, as [text_format] (not under src/) prints it. *)
Fixpoint print_field `{TextFormat} (indent : nat) (name : pystr) (v : pbvalue)
  : pystr :=
  match v with
  | PbString s =>
      spaces indent ++ name ++ py ": " ++ [34] ++ cescape s ++ [34] ++ [10]
  | PbMessage fields =>
      spaces indent ++ name ++ py " {" ++ [10]
      ++ flat_map (fun f => print_field (indent + 2) (fst f) (snd f)) fields
      ++ spaces indent ++ py "}" ++ [10]
  end.

(** Modelled from the spec:
    [text_format.MessageToString(m, as_utf8=True, use_index_order=True)],
    the fields of the message one after another. *)
Definition MessageToString `{TextFormat} (m : DesignerInfoProto) : pystr :=
  flat_map (fun f => print_field 0 (fst f) (snd f)) (info_fields m).

End Pb.

(** ** The program *)

Local Open Scope py_scope.

(** Truth value of an optional string or list ([None] and empty are false). *)
Definition truthy {A} (v : option (list A)) : bool :=
  match v with
  | Some (_ :: _) => true
  | _ => false
  end.

(** [process_image(fp)] *)
Definition process_image `{Pillow} (fp : pystr) : Py image :=
  is_file <- isfile fp ;;
  if negb is_file then raise (ValueError (fp ++ py " is not a file"))
  else
    img <- Pil.open fp ;;
    let '(width, height) := Pil.size img in
    (if negb (width =? height)%Z
     then print (py "warning: img is rectangular when it should be square")
     else ret tt) ;;
    (if (width <? 300)%Z || (height <? 300)%Z
     then print (py "warning: img is smaller than 300x300px")
     else ret tt) ;;
    print (py "resizing image") ;;
    ret (Pil.thumbnail (300, 300)%Z img).

(** [gen_info(designer, img_path, link="")] *)
Definition gen_info_message (designer img_path link : pystr)
  : DesignerInfoProto :=
  let info := {| pb_designer := None; pb_link := None; pb_avatar := None |} in
  let info := {| pb_designer := Some designer; pb_link := pb_link info;
                 pb_avatar := pb_avatar info |} in
  let info := {| pb_designer := pb_designer info; pb_link := Some (py "");
                 pb_avatar := pb_avatar info |} in
  {| pb_designer := pb_designer info; pb_link := pb_link info;
     pb_avatar := Some {| pb_file_name := Some img_path |} |}.

Definition gen_info `{TextFormat} (designer img_path link : pystr) : pystr :=
  Pb.MessageToString (gen_info_message designer img_path link).

(** [parse_urls(string)]: the loop appends to [res], one URL per token. *)
Definition parse_urls (string : pystr) : list pystr :=
  let urls := Str.split_ws string in
  fold_left
    (fun res url =>
       let url := if negb (Str.startswith url (py "http"))
                  then py "https://" ++ url else url in
       res ++ [url])
    urls [].

(** [f"<a href={u}>{u.split('//')[1]}</a>"] *)
Definition anchor (u : pystr) : outcome pystr :=
  match Str.split u (py "//") !! 1%nat with
  | Some shown => Ok (py "<a href=" ++ u ++ py ">" ++ shown ++ py "</a>")
  | None => Raise IndexError
  end.

(** The generator handed to [" | ".join]: anchors are made in order and the
    first failure ends the whole expression. *)
Fixpoint anchors (urls : list pystr) : outcome (list pystr) :=
  match urls with
  | [] => Ok []
  | u :: rest =>
      match anchor u with
      | Raise e => Raise e
      | Ok a =>
          match anchors rest with
          | Raise e => Raise e
          | Ok l => Ok (a :: l)
          end
      end
  end.

(** The [bio.html] block of [make_designer]: the text to write, or [None]
    when nothing is to be written. *)
Definition bio_html (bio_file : pystr) (bio : option pystr)
    (urls : option (list pystr)) : Py (option pystr) :=
  match bio with
  | Some (c :: bio') =>
      print (py "Generating bio.html") ;;
      let html_text := py "<p>" ++ (c :: bio') ++ py "</p>" in
      match urls with
      | Some (u :: urls') =>
          l <- lift (anchors (u :: urls')) ;;
          let hrefs := Str.join (py " | ") l in
          ret (Some (html_text ++ [10] ++ py "<p>" ++ hrefs ++ py "</p>"))
      | _ => ret (Some html_text)
      end
  | _ =>
      exists_already <- isfile bio_file ;;
      if exists_already
      then
        print (py "Skipping. No bio text supplied but bio.html already exists") ;;
        ret None
      else
        print (py "Please manually update the bio.html file") ;;
        ret (Some (py "N/A"))
  end.

Section Program.
Context `{Unicode} `{Pillow} `{Host} `{TextFormat}.

(** [designer_dir_name = name.lower().replace(" ", "").replace("-", "")] *)
Definition designer_dir_name (name : pystr) : pystr :=
  Str.replace (Str.replace (str_lower name) (py " ") (py "")) (py "-") (py "").

(** [make_designer(designer_directory, name, img_path, bio=None, urls=None)] *)
Definition make_designer (designer_directory name img_path : pystr)
    (bio : option pystr) (urls : option (list pystr)) : Py unit :=
  let dir_name := designer_dir_name name in
  let designer_dir := Path.join designer_directory dir_name in
  is_dir <- isdir designer_dir ;;
  (if negb is_dir
   then
     print (name ++ py " isn't in catalog. Creating new dir " ++ designer_dir) ;;
     mkdir designer_dir
   else ret tt) ;;
  print (py "processing image " ++ img_path) ;;
  image <- process_image img_path ;;
  let image_file := Path.join designer_dir (dir_name ++ py ".png") in
  Pil.save image image_file ;;
  print (py "Generating info.pb file") ;;
  let info_pb := gen_info name (Path.basename image_file) (py "") in
  let filename := Path.join designer_dir (py "info.pb") in
  write_text filename info_pb ;;
  let bio_file := Path.join designer_dir (py "bio.html") in
  html_text <- bio_html bio_file bio urls ;;
  if truthy html_text
  then write_text bio_file (default [] html_text)
  else ret tt.

End Program.

(** ** [main] *)

(** The parsed command line. *)
Record Namespace := {
  designers_directory : pystr;
  arg_name : pystr;
  arg_img_path : pystr;
  spreadsheet : option pystr
}.

(** Values held by the local variables of [main]: [None], a string, a list
    of strings, or a value of another type (a number, the [nan] the reader
    gives for an empty cell) with its truth value and the text a format
    shows for it. *)
Inductive pyval :=
| VNone
| VStr (s : pystr)
| VList (l : list pystr)
| VOther (truth : bool) (shown : pystr).

(** The spreadsheet reader: the [Bio] and [Link] cells of the one row whose
    [Name] is the designer's, whatever their types, or the reader's
    exception. *)
Class Pandas := { read_entry : pystr -> pystr -> world -> outcome (pyval * pyval) }.

(** [if v:] *)
Definition truth_value (v : pyval) : bool :=
  match v with
  | VNone => false
  | VStr s => truthy (Some s)
  | VList l => truthy (Some l)
  | VOther t _ => t
  end.

(** [parse_urls(v)] for a value of any type: only a string has [split]. *)
Definition parse_urls_value (v : pyval) : outcome pyval :=
  match v with
  | VStr s => Ok (VList (parse_urls s))
  | _ => Raise AttributeError
  end.

(** Reading a local variable: one that no executed statement has bound
    raises. *)
Definition load (locals : gmap string pyval) (var : string) : Py pyval :=
  match locals !! var with
  | Some v => ret v
  | None => raise (UnboundLocalError var)
  end.

(** The values as [make_designer] uses them: [bio] in a truth test and a
    format, [urls] in a truth test and an iteration (a string iterates over
    its code points). *)
Definition as_text (v : pyval) : option pystr :=
  match v with
  | VStr s => Some s
  | VOther true shown => Some shown
  | _ => None
  end.

Definition as_sequence (v : pyval) : option (list pystr) :=
  match v with
  | VStr s => Some (map (fun c => [c]) s)
  | VList l => Some l
  | _ => None
  end.

Section Main.
Context `{Unicode} `{Pillow} `{Host} `{TextFormat} `{Pandas}.

(** The two branches of [main] that bind its locals. *)
Definition main_locals (args : Namespace) : Py (gmap string pyval) :=
  if truthy (spreadsheet args)
  then
    entry <- (fun w => (read_entry (default [] (spreadsheet args))
                                   (arg_name args) w, w)) ;;
    let locals : gmap string pyval := <["bio" := fst entry]> ∅ in
    let locals := <["urls" := snd entry]> locals in
    if truth_value (snd entry)
    then
      urls <- lift (parse_urls_value (snd entry)) ;;
      ret (<["urls" := urls]> locals)
    else ret locals
  else
    let locals : gmap string pyval := <["bio" := VNone]> ∅ in
    let locals := <["url" := VNone]> locals in
    ret locals.

(** [main()], from the parsed arguments on. *)
Definition main (args : Namespace) : Py unit :=
  locals <- main_locals args ;;
  bio <- load locals "bio" ;;
  urls <- load locals "urls" ;;
  make_designer (designers_directory args) (arg_name args) (arg_img_path args)
                (as_text bio) (as_sequence urls).

End Main.

(** ** A reference platform

    Instances small enough to run the program on: the case tables on the
    ASCII range (above), images stored as width, height and raw data,
    nearest-corner resampling reduced to keeping the data, UTF-8 on ASCII
    text, and the escapes [text_format] applies to a string. *)

Definition raw_decode (content : list N) : option image :=
  match content with
  | w :: h :: data =>
      Some {| im_width := Z.of_N w; im_height := Z.of_N h; im_data := data |}
  | _ => None
  end.

Definition raw_encode (img : image) : list N :=
  Z.to_N (im_width img) :: Z.to_N (im_height img) :: im_data img.

#[export] Instance raw_pillow : Pillow :=
  {| decode := raw_decode;
     resample := fun img _ _ => im_data img;
     encode_png := raw_encode |}.

#[export] Instance ascii_host : Host := {| encode_text := fun s => s |}.

Definition cescape_table (c : N) : pystr :=
  if c =? 9 then py "\t"
  else if c =? 10 then py "\n"
  else if c =? 13 then py "\r"
  else if c =? 34 then [92; 34]
  else if c =? 39 then [92; 39]
  else if c =? 92 then [92; 92]
  else [c].

#[export] Instance text_format : TextFormat := {| cescape_cp := cescape_table |}.

#[export] Instance no_spreadsheet : Pandas :=
  {| read_entry := fun path _ _ => Raise (FileNotFoundError path) |}.

(** A catalog holding the directory [cat] and a 400 by 200 picture. *)
Definition demo_world : world :=
  {| fs := <[py "pic.jpg" := File [400; 200; 7; 7]]> (<[py "cat" := Dir]> ∅);
     stdout := [] |}.

(** ** Vocabulary of the specification *)

(** What [parse_urls] is said to do to one token. *)
Definition with_scheme (token : pystr) : pystr :=
  if Str.startswith token (py "http") then token else py "https://" ++ token.

(** A URL with everything up to and including its first [//] removed. *)
Fixpoint strip_scheme (u : pystr) : pystr :=
  match u with
  | [] => []
  | _ :: u' => if Str.startswith u (py "//") then drop 2 u else strip_scheme u'
  end.

(** A text up to its first [//], all of it when it has none. *)
Fixpoint before_slashes (s : pystr) : pystr :=
  match s with
  | [] => []
  | c :: s' => if Str.startswith s (py "//") then [] else c :: before_slashes s'
  end.

(** The anchor the specification describes for a URL, and the one the
    program makes for a URL that holds [//]. *)
Definition claimed_anchor (u : pystr) : pystr :=
  py "<a href=" ++ u ++ py ">" ++ strip_scheme u ++ py "</a>".

Definition made_anchor (u : pystr) : pystr :=
  py "<a href=" ++ u ++ py ">" ++ before_slashes (strip_scheme u) ++ py "</a>".

(** The page made of a biography and a list of anchors. *)
Definition bio_page (bio : pystr) (anchor_list : list pystr) : pystr :=
  py "<p>" ++ bio ++ py "</p>" ++ [10]
  ++ py "<p>" ++ Str.join (py " | ") anchor_list ++ py "</p>".

(** A URL in which [//] occurs. *)
Definition has_slashes (u : pystr) : Prop :=
  exists a b : pystr, u = a ++ py "//" ++ b.

(** The lines [process_image] prints for an image it could open. *)
Definition process_image_log (img : image) : list pystr :=
  (if negb (im_width img =? im_height img)%Z
   then [py "warning: img is rectangular when it should be square"] else [])
  ++ (if (im_width img <? 300)%Z || (im_height img <? 300)%Z
      then [py "warning: img is smaller than 300x300px"] else [])
  ++ [py "resizing image"].

(** The files of a designer's record. *)
Definition designer_dir `{Unicode} (designer_directory name : pystr) : pystr :=
  Path.join designer_directory (designer_dir_name name).

Definition image_file `{Unicode} (designer_directory name : pystr) : pystr :=
  Path.join (designer_dir designer_directory name)
            (designer_dir_name name ++ py ".png").

Definition info_file `{Unicode} (designer_directory name : pystr) : pystr :=
  Path.join (designer_dir designer_directory name) (py "info.pb").

Definition bio_file `{Unicode} (designer_directory name : pystr) : pystr :=
  Path.join (designer_dir designer_directory name) (py "bio.html").

(** The directory part of a path is usable; a path can be created as a new
    entry; a path can be opened for writing. *)
Definition parent_ok (m : gmap pystr node) (p : pystr) : Prop :=
  Path.dirname p = [] \/ stat m (Path.dirname p) = Some Dir.

Definition creatable (m : gmap pystr node) (p : pystr) : Prop :=
  p <> [] /\ stat m p = None /\ parent_ok m p.

Definition writable (m : gmap pystr node) (p : pystr) : Prop :=
  p <> [] /\ stat m p <> Some Dir /\ parent_ok m p.

(** The world with one more entry, or one more file content. *)
Definition with_node (p : pystr) (n : node) (w : world) : world :=
  {| fs := <[p := n]> (fs w); stdout := stdout w |}.

(** The world after more console output. *)
Definition with_output (out : list pystr) (w : world) : world :=
  {| fs := fs w; stdout := stdout w ++ out |}.

(** A property of the world that a computation keeps, whatever its outcome. *)
Definition keeps {A} (P : world -> Prop) (c : Py A) : Prop :=
  forall w, P w -> P (snd (c w)).

(** A catalog where the designer [a] has a hand-written biography. *)
Definition demo_catalog : world :=
  {| fs := <[py "cat/a/bio.html" := File (py "<p>By hand</p>")]>
             (<[py "cat/a" := Dir]> (fs demo_world));
     stdout := [] |}.

(** The text of a designer's [info.pb]. *)
Definition info_text `{Unicode} `{TextFormat} (designer_directory name : pystr)
  : pystr :=
  gen_info name (Path.basename (image_file designer_directory name)) (py "").

(** The files [m'] a successful run of [make_designer] leaves, from the
    files [m] it starts with: the directory is there or is created, the
    image opens, and each file can be written when its turn comes. *)
Definition synced `{Unicode} `{Pillow} `{Host} `{TextFormat}
    (d n i : pystr) (bio : option pystr) (urls : option (list pystr))
    (m m' : gmap pystr node) : Prop :=
  exists (m1 : gmap pystr node) (content : list N) (img0 : image)
         (html : option pystr),
    let m2 := <[image_file d n :=
                  File (encode_png (Pil.thumbnail (300, 300)%Z img0))]> m1 in
    let m3 := <[info_file d n := File (encode_text (info_text d n))]> m2 in
    (stat m (designer_dir d n) = Some Dir /\ m1 = m
     \/ creatable m (designer_dir d n) /\ m1 = <[designer_dir d n := Dir]> m)
    /\ stat m1 i = Some (File content) /\ decode content = Some img0
    /\ writable m1 (image_file d n)
    /\ writable m2 (info_file d n)
    /\ (forall w3, fs w3 = m3 ->
                   fst (bio_html (bio_file d n) bio urls w3) = Ok html)
    /\ (truthy html = true /\ writable m3 (bio_file d n)
        /\ m' = <[bio_file d n := File (encode_text (default [] html))]> m3
        \/ truthy html = false /\ m' = m3).

(** A codec that gives back the image it has encoded. *)
Definition png_lossless `{Pillow} : Prop :=
  forall img : image, decode (encode_png img) = Some img.

(** The page [make_designer] writes for a new designer: made from the
    biography, with the anchors when links are given, or the placeholder. *)
Definition bio_text (bio : option pystr) (urls : option (list pystr)) : pystr :=
  match bio with
  | Some (c :: bio') =>
      match urls with
      | Some (u :: urls') => bio_page (c :: bio') (map made_anchor (u :: urls'))
      | _ => py "<p>" ++ (c :: bio') ++ py "</p>"
      end
  | _ => py "N/A"
  end.

(** Links that can be shown: with a biography, each holds [//]. *)
Definition links_ok (bio : option pystr) (urls : option (list pystr)) : Prop :=
  truthy bio = true ->
  forall l u, urls = Some l -> u ∈ l -> has_slashes u.

(** A spreadsheet reader that finds one row for every name. *)
Definition demo_sheet : Pandas :=
  {| read_entry :=
       fun _ _ _ => Ok (VStr (py "Hello"), VStr (py "example.com foo.org")) |}.

(** A reader that finds a row with a biography and an empty [Link] cell. *)
Definition demo_sheet_no_link : Pandas :=
  {| read_entry :=
       fun _ _ _ => Ok (VStr (py "Hello"), VOther true (py "nan")) |}.

(** * Properties *)

(** Literals of the source as explicit code points, and concatenations
    flattened to the right. *)
Ltac py_literals :=
  repeat match goal with
         | |- context [py ?s] =>
             let v := eval vm_compute in (py s) in change (py s) with v
         end.

Ltac py_norm :=
  py_literals; cbn [app flat_map Pb.cescape];
  repeat (rewrite <- !app_assoc; cbn [app]).

(** ** String methods *)

Lemma startswith_prefix (s p : pystr) :
  Str.startswith s p = true <-> s = p ++ drop (length p) s.
Proof.
  revert s; induction p as [|x p IH]; intros s; simpl.
  - by split.
  - destruct s as [|c s]; simpl; [by split|].
    rewrite andb_true_iff, N.eqb_eq, IH. split.
    + intros [-> Hs]. by f_equal.
    + intros Hs. injection Hs as -> Hs. done.
Qed.

Lemma startswith_app (p r : pystr) : Str.startswith (p ++ r) p = true.
Proof.
  induction p as [|x p IH]; simpl; [done|].
  by rewrite N.eqb_refl.
Qed.

(** [partition] cuts at an occurrence of the separator... *)
Lemma partition_Some (s sep a b : pystr) :
  Str.partition s sep = Some (a, b) -> s = a ++ sep ++ b.
Proof.
  revert a b; induction s as [|c s IH]; intros a b.
  - simpl. destruct (Str.startswith [] sep) eqn:E; [|done].
    intros [= <- <-]. simpl. by apply startswith_prefix in E.
  - cbn [Str.partition]. destruct (Str.startswith (c :: s) sep) eqn:E.
    + intros [= <- <-]. simpl. by apply startswith_prefix in E.
    + destruct (Str.partition s sep) as [[a' b']|] eqn:P; [|done].
      intros [= <- <-]. simpl. f_equal. by apply IH.
Qed.

(** ... and at the leftmost one. *)
Lemma partition_leftmost (s sep a b a' b' : pystr) :
  Str.partition s sep = Some (a, b) -> s = a' ++ sep ++ b' ->
  (length a <= length a')%nat.
Proof.
  revert a b a'; induction s as [|c s IH]; intros a b a'.
  - simpl. destruct (Str.startswith [] sep); [|done].
    intros [= <- <-] _. simpl. lia.
  - cbn [Str.partition]. destruct (Str.startswith (c :: s) sep) eqn:E.
    + intros [= <- <-] _. simpl. lia.
    + destruct (Str.partition s sep) as [[a1 b1]|] eqn:P; [|done].
      intros [= <- <-] Hs. destruct a' as [|x a'].
      * simpl in Hs. rewrite Hs, startswith_app in E. done.
      * injection Hs as -> Hs. simpl. apply le_n_S. by eapply IH.
Qed.

Lemma partition_None (s sep a b : pystr) :
  Str.partition s sep = None -> s <> a ++ sep ++ b.
Proof.
  revert a; induction s as [|c s IH]; intros a.
  - simpl. destruct (Str.startswith [] sep) eqn:E; [done|].
    intros _ Hs. symmetry in Hs. apply app_eq_nil in Hs as [-> Hs].
    apply app_eq_nil in Hs as [-> _]. done.
  - cbn [Str.partition]. destruct (Str.startswith (c :: s) sep) eqn:E; [done|].
    destruct (Str.partition s sep) as [[a1 b1]|] eqn:P; [done|].
    intros _ Hs. destruct a as [|x a].
    + simpl in Hs. rewrite Hs, startswith_app in E. done.
    + injection Hs as -> Hs. by eapply IH.
Qed.

Lemma partition_shorter (s sep a b : pystr) :
  sep <> [] -> Str.partition s sep = Some (a, b) -> (length b < length s)%nat.
Proof.
  intros Hsep Hp. apply partition_Some in Hp as ->.
  rewrite !length_app. destruct sep; [done|]. simpl. lia.
Qed.

(** The rounds [split] and [replace] are given are enough: more change
    nothing. *)
Lemma split_fuel_enough (n : nat) (s sep : pystr) :
  sep <> [] -> (length s <= n)%nat ->
  Str.split_fuel n s sep = Str.split s sep.
Proof.
  intros Hsep. unfold Str.split.
  remember (length s) as m eqn:Hm. revert n s Hm.
  induction m as [m IH] using lt_wf_ind. intros n s -> Hn.
  destruct n as [|n]; simpl.
  - destruct s; [|simpl in Hn; lia]. simpl. done.
  - destruct (length s) as [|k] eqn:Hlen; simpl.
    + destruct s; [|done]. simpl.
      destruct (Str.startswith [] sep) eqn:E; [|done].
      apply startswith_prefix in E. destruct sep; [done|]. done.
    + destruct (Str.partition s sep) as [[a b]|] eqn:P; [|done].
      f_equal. pose proof (partition_shorter _ _ _ _ Hsep P) as Hb.
      rewrite (IH (length b)); [|lia|done|lia].
      symmetry. apply (IH (length b)); [lia|done|lia].
Qed.

Lemma replace_fuel_enough (n : nat) (s old new : pystr) :
  old <> [] -> (length s <= n)%nat ->
  Str.replace_fuel n s old new = Str.replace s old new.
Proof.
  intros Hold. destruct old as [|o old]; [done|]. unfold Str.replace.
  remember (length s) as m eqn:Hm. revert n s Hm.
  induction m as [m IH] using lt_wf_ind. intros n s -> Hn.
  destruct n as [|n]; simpl.
  - destruct s; [|simpl in Hn; lia]. done.
  - destruct (length s) as [|k] eqn:Hlen.
    + destruct s; [|done]. done.
    + cbn [Str.replace_fuel].
      destruct (Str.partition s (o :: old)) as [[a b]|] eqn:P; [|done].
      do 2 f_equal. pose proof (partition_shorter _ _ _ _ Hold P) as Hb.
      rewrite (IH (length b)); [|lia|done|lia].
      symmetry. apply (IH (length b)); [lia|done|lia].
Qed.

(** [s.replace(old, new)], one occurrence at a time. *)
Lemma replace_unfold (s old new : pystr) :
  old <> [] ->
  Str.replace s old new =
    match Str.partition s old with
    | None => s
    | Some (a, b) => a ++ new ++ Str.replace b old new
    end.
Proof.
  intros Hold. destruct old as [|o old]; [done|].
  unfold Str.replace at 1. destruct s as [|c s].
  - simpl. done.
  - cbn [length Str.replace_fuel].
    destruct (Str.partition (c :: s) (o :: old)) as [[a b]|] eqn:P; [|done].
    rewrite replace_fuel_enough; [done|done|].
    apply partition_shorter in P; [|done]. simpl in P. lia.
Qed.

Lemma split_unfold (s sep : pystr) :
  sep <> [] ->
  Str.split s sep =
    match Str.partition s sep with
    | None => [s]
    | Some (a, b) => a :: Str.split b sep
    end.
Proof.
  intros Hsep. unfold Str.split at 1. destruct s as [|c s].
  - simpl. destruct (Str.startswith [] sep) eqn:E; [|done].
    apply startswith_prefix in E. destruct sep; done.
  - cbn [length Str.split_fuel].
    destruct (Str.partition (c :: s) sep) as [[a b]|] eqn:P; [|done].
    rewrite split_fuel_enough; [done|done|].
    apply partition_shorter in P; [|done]. simpl in P. lia.
Qed.

Lemma filter_keeps_all (P : N -> Prop) `{!forall x, Decision (P x)} (l : pystr) :
  (forall x, x ∈ l -> P x) -> filter P l = l.
Proof.
  induction l as [|x l IH]; intros Hl; [done|].
  rewrite filter_cons_True by (apply Hl; left).
  f_equal. apply IH. intros y Hy. apply Hl. by right.
Qed.

Lemma partition_single_None (s : pystr) (c : N) :
  Str.partition s [c] = None -> c ∉ s.
Proof.
  intros Hp Hin. apply list_elem_of_split in Hin as (a & b & ->).
  by eapply (partition_None _ [c] a b).
Qed.

Lemma partition_single_Some (s a b : pystr) (c : N) :
  Str.partition s [c] = Some (a, b) -> c ∉ a.
Proof.
  intros Hp Hin. apply list_elem_of_split in Hin as (a1 & a2 & ->).
  pose proof (partition_Some _ _ _ _ Hp) as Hs.
  pose proof (partition_leftmost _ _ _ _ a1 (a2 ++ [c] ++ b) Hp) as Hlen.
  rewrite length_app in Hlen. simpl in Hlen.
  enough (length a1 + S (length a2) <= length a1)%nat by lia.
  apply Hlen. rewrite Hs. by rewrite <- !app_assoc.
Qed.

(** Replacing a one-character string by the empty string removes every
    occurrence of the character and nothing else. *)
Lemma replace_single_empty (s : pystr) (c : N) :
  Str.replace s [c] [] = filter (fun x => x <> c) s.
Proof.
  remember (length s) as m eqn:Hm. revert s Hm.
  induction m as [m IH] using lt_wf_ind. intros s ->.
  rewrite replace_unfold by done.
  destruct (Str.partition s [c]) as [[a b]|] eqn:P.
  - pose proof (partition_Some _ _ _ _ P) as Hs.
    pose proof (partition_single_Some _ _ _ _ P) as Ha.
    assert ([c] <> []) as Hc by done.
    pose proof (partition_shorter _ _ _ _ Hc P) as Hb.
    rewrite (IH (length b)) by (done || lia).
    rewrite Hs at 1. rewrite !filter_app. simpl.
    rewrite filter_cons_False by (intros Hne; by apply Hne).
    rewrite filter_nil. simpl. f_equal.
    symmetry. apply filter_keeps_all. intros x Hx ->. done.
  - symmetry. apply filter_keeps_all. intros x Hx ->.
    by apply partition_single_None in P.
Qed.

(** ** The directory key *)

Lemma designer_dir_name_filter `{Unicode} (n : pystr) :
  designer_dir_name n = filter (fun c => c <> 32 /\ c <> 45) (str_lower n).
Proof.
  unfold designer_dir_name.
  change (py " ") with [32]. change (py "-") with [45]. change (py "") with (@nil N).
  rewrite !replace_single_empty, list_filter_filter.
  apply list_filter_iff. intros x. tauto.
Qed.

Lemma ascii_lower_cp_fixed (c : N) :
  ascii_lower_cp (ascii_lower_cp c) = ascii_lower_cp c.
Proof.
  unfold ascii_lower_cp.
  destruct ((65 <=? c) && (c <=? 90)) eqn:E; [|by rewrite E].
  apply andb_true_iff in E as [E1 E2].
  apply N.leb_le in E1, E2.
  replace (c + 32 <=? 90) with false by (symmetry; apply N.leb_gt; lia).
  by rewrite andb_false_r.
Qed.

Lemma ascii_lower_stable : @lower_stable ascii_tables.
Proof.
  intros s t Hsub. simpl. unfold ascii_lower.
  induction t as [|c t IH]; [done|]. simpl. f_equal.
  - assert (c ∈ ascii_lower s) as Hc by (apply Hsub; left).
    unfold ascii_lower in Hc. apply list_elem_of_fmap in Hc as (c0 & -> & _).
    apply ascii_lower_cp_fixed.
  - apply IH. intros x Hx. apply Hsub. by right.
Qed.

(** C4. The directory key of a name is the lower-cased name without its
    spaces and hyphens and with every other character kept; it holds no
    space and no hyphen; equal names give equal keys; and when the case
    tables leave lower-cased text alone, the key of a key is that key. *)
Theorem designer_dir_name_normalizes `{Unicode} (n : pystr) :
  designer_dir_name n = filter (fun c => c <> 32 /\ c <> 45) (str_lower n)
  /\ (32 ∉ designer_dir_name n) /\ (45 ∉ designer_dir_name n)
  /\ (forall n', n' = n -> designer_dir_name n' = designer_dir_name n)
  /\ (lower_stable ->
      designer_dir_name (designer_dir_name n) = designer_dir_name n).
Proof.
  pose proof (designer_dir_name_filter n) as Hn.
  split; [done|]. split; [|split; [|split]].
  - rewrite Hn. intros Hin. apply list_elem_of_filter in Hin as [[? _] _]. done.
  - rewrite Hn. intros Hin. apply list_elem_of_filter in Hin as [[_ ?] _]. done.
  - by intros n' ->.
  - intros Hstable. rewrite (designer_dir_name_filter (designer_dir_name n)).
    rewrite (Hstable n (designer_dir_name n)).
    + rewrite Hn. apply filter_keeps_all.
      intros x Hx. by apply list_elem_of_filter in Hx as [? _].
    + rewrite Hn. intros x Hx. by apply list_elem_of_filter in Hx as [_ ?].
Qed.

Lemma designer_dir_name_normalizes_witness :
  @designer_dir_name ascii_tables (py "Theo Salva-Dore") = py "theosalvadore"
  /\ @designer_dir_name ascii_tables
       (@designer_dir_name ascii_tables (py "Theo Salva-Dore"))
     = @designer_dir_name ascii_tables (py "Theo Salva-Dore").
Proof.
  split; [reflexivity|].
  apply (@designer_dir_name_normalizes ascii_tables (py "Theo Salva-Dore")).
  apply ascii_lower_stable.
Defined.

(** ** URL normalisation *)

Lemma append_loop_map {A B} (f : A -> B) (l : list A) (acc : list B) :
  fold_left (fun res x => res ++ [f x]) l acc = acc ++ map f l.
Proof.
  revert acc; induction l as [|x l IH]; intros acc; simpl.
  - by rewrite app_nil_r.
  - rewrite IH. by rewrite <- app_assoc.
Qed.

(** The tokens of [s.split()] are runs of [s]: none is empty and none holds
    a whitespace character, and together they are [s] without its
    whitespace. *)
Lemma split_ws_go_tokens (cur s t : pystr) :
  (forall c, c ∈ cur -> Str.isspace c = false) ->
  t ∈ Str.split_ws_go cur s ->
  t <> [] /\ (forall c, c ∈ t -> Str.isspace c = false).
Proof.
  revert cur; induction s as [|c s IH]; intros cur Hcur; simpl.
  - destruct cur as [|x cur]; [by intros ?%elem_of_nil|].
    intros ->%list_elem_of_singleton. split.
    + simpl. by destruct (rev cur).
    + intros c Hc. apply Hcur. by apply list_elem_of_In, in_rev, list_elem_of_In.
  - destruct (Str.isspace c) eqn:E.
    + destruct cur as [|x cur].
      * apply IH. by intros ? ?%elem_of_nil.
      * intros [->|Ht]%elem_of_cons.
        -- split; [simpl; by destruct (rev cur)|].
           intros y Hy. apply Hcur.
           by apply list_elem_of_In, in_rev, list_elem_of_In.
        -- revert Ht. apply IH. by intros ? ?%elem_of_nil.
    + apply IH. intros y [->|Hy]%elem_of_cons; [done|by apply Hcur].
Qed.

Lemma split_ws_go_concat (cur s : pystr) :
  (forall c, c ∈ cur -> Str.isspace c = false) ->
  concat (Str.split_ws_go cur s)
  = rev cur ++ filter (fun c => Str.isspace c = false) s.
Proof.
  revert cur; induction s as [|c s IH]; intros cur Hcur; simpl.
  - rewrite filter_nil, app_nil_r. destruct cur; [done|]. simpl.
    by rewrite app_nil_r.
  - destruct (Str.isspace c) eqn:E.
    + rewrite filter_cons_False by (by rewrite E).
      destruct cur as [|x cur]; simpl.
      * by rewrite IH by (by intros ? ?%elem_of_nil).
      * by rewrite IH by (by intros ? ?%elem_of_nil).
    + rewrite filter_cons_True by done.
      rewrite IH. { simpl. by rewrite <- app_assoc. }
      intros y [->|Hy]%elem_of_cons; [done|by apply Hcur].
Qed.

Lemma split_ws_tokens (s t : pystr) :
  t ∈ Str.split_ws s -> t <> [] /\ (forall c, c ∈ t -> Str.isspace c = false).
Proof. apply split_ws_go_tokens. by intros ? ?%elem_of_nil. Qed.

Lemma split_ws_concat (s : pystr) :
  concat (Str.split_ws s) = filter (fun c => Str.isspace c = false) s.
Proof. unfold Str.split_ws. by rewrite split_ws_go_concat by (by intros ? ?%elem_of_nil). Qed.

(** C7. [parse_urls] cuts its argument at whitespace and gives, for each
    token in order, the token itself when it begins with [http] and the
    token behind [https://] otherwise. *)
Theorem parse_urls_tokens (s : pystr) :
  parse_urls s = map with_scheme (Str.split_ws s)
  /\ (forall t, Str.startswith t (py "http") = true -> with_scheme t = t)
  /\ (forall t, Str.startswith t (py "http") = false ->
                with_scheme t = py "https://" ++ t)
  /\ parse_urls (py "example.com foo.org")
     = [py "https://example.com"; py "https://foo.org"]
  /\ parse_urls (py "http://x.com") = [py "http://x.com"].
Proof.
  split; [|split; [|split; [|split]]].
  - unfold parse_urls.
    rewrite (append_loop_map
               (fun url => if negb (Str.startswith url (py "http"))
                           then py "https://" ++ url else url)).
    rewrite app_nil_l. apply map_ext. intros t. unfold with_scheme.
    by destruct (Str.startswith t (py "http")).
  - intros t Ht. unfold with_scheme. by rewrite Ht.
  - intros t Ht. unfold with_scheme. by rewrite Ht.
  - reflexivity.
  - reflexivity.
Qed.

Lemma parse_urls_tokens_witness :
  with_scheme (py "http://x.com") = py "http://x.com"
  /\ with_scheme (py "foo.org") = py "https://foo.org".
Proof.
  split.
  - apply (parse_urls_tokens []). reflexivity.
  - apply (parse_urls_tokens []). reflexivity.
Defined.

(** ** The metadata record *)

(** C6. [gen_info] builds the record with [designer] the name, [link] the
    empty string and [avatar.file_name] the avatar's file name; its text
    lists these fields in that order, each on lines of its own; and equal
    arguments give equal text. *)
Theorem gen_info_fields `{TextFormat} (name avatar_filename link0 : pystr) :
  gen_info_message name avatar_filename link0
  = {| pb_designer := Some name; pb_link := Some [];
       pb_avatar := Some {| pb_file_name := Some avatar_filename |} |}
  /\ Pb.info_fields (gen_info_message name avatar_filename link0)
     = [(py "designer", PbString name); (py "link", PbString []);
        (py "avatar", PbMessage [(py "file_name", PbString avatar_filename)])]
  /\ gen_info name avatar_filename link0
     = py "designer: " ++ [34] ++ Pb.cescape name ++ [34; 10]
       ++ py "link: " ++ [34; 34; 10]
       ++ py "avatar {" ++ [10]
       ++ py "  file_name: " ++ [34] ++ Pb.cescape avatar_filename ++ [34; 10]
       ++ py "}" ++ [10]
  /\ (forall name' avatar_filename',
        name' = name -> avatar_filename' = avatar_filename ->
        gen_info name' avatar_filename' link0
        = gen_info name avatar_filename link0).
Proof.
  split; [reflexivity|]. split; [reflexivity|]. split.
  - unfold gen_info, Pb.MessageToString. cbn -[py].
    rewrite !app_nil_r. by py_norm.
  - by intros ? ? -> ->.
Qed.

Lemma gen_info_fields_witness :
  @gen_info text_format (py "Jane Doe") (py "janedoe.png") (py "")
  = py "designer: " ++ [34] ++ py "Jane Doe" ++ [34; 10]
    ++ py "link: " ++ [34; 34; 10]
    ++ py "avatar {" ++ [10]
    ++ py "  file_name: " ++ [34] ++ py "janedoe.png" ++ [34; 10]
    ++ py "}" ++ [10]
  /\ @gen_info text_format (py "Jane Doe") (py "janedoe.png") (py "")
     = @gen_info text_format (py "Jane Doe") (py "janedoe.png") (py "").
Proof.
  split; [reflexivity|].
  apply (@gen_info_fields text_format (py "Jane Doe") (py "janedoe.png") (py ""));
    reflexivity.
Defined.

(** ** The biography page *)

Lemma partition_strip_scheme (u a b : pystr) :
  Str.partition u (py "//") = Some (a, b) -> strip_scheme u = b.
Proof.
  revert a; induction u as [|c u IH]; intros a.
  - cbn. done.
  - cbn [Str.partition strip_scheme].
    destruct (Str.startswith (c :: u) (py "//")); [by intros [= <- <-]|].
    destruct (Str.partition u (py "//")) as [[a1 b1]|]; [|done].
    intros [= <- <-]. by apply (IH a1).
Qed.

Lemma partition_before_slashes (s : pystr) :
  before_slashes s =
    match Str.partition s (py "//") with
    | Some (a, _) => a
    | None => s
    end.
Proof.
  induction s as [|c s IH].
  - cbn. done.
  - cbn [Str.partition before_slashes].
    destruct (Str.startswith (c :: s) (py "//")); [done|].
    rewrite IH. by destruct (Str.partition s (py "//")) as [[a1 b1]|].
Qed.

Lemma has_slashes_partition (u : pystr) :
  has_slashes u -> exists a b, Str.partition u (py "//") = Some (a, b).
Proof.
  intros (a & b & Hu).
  destruct (Str.partition u (py "//")) as [[a1 b1]|] eqn:P; [by eauto|].
  by apply (partition_None _ _ a b) in P.
Qed.

Lemma split_slashes_second (u : pystr) :
  has_slashes u ->
  Str.split u (py "//") !! 1%nat = Some (before_slashes (strip_scheme u)).
Proof.
  intros (a & b & P)%has_slashes_partition.
  rewrite (partition_strip_scheme _ _ _ P).
  rewrite split_unfold, P by done. cbn [lookup list_lookup].
  rewrite split_unfold by done. rewrite partition_before_slashes.
  by destruct (Str.partition b (py "//")) as [[a1 b1]|].
Qed.

Lemma split_slashes_none (u : pystr) :
  ~ has_slashes u -> Str.split u (py "//") !! 1%nat = None.
Proof.
  intros Hu. rewrite split_unfold by done.
  destruct (Str.partition u (py "//")) as [[a b]|] eqn:P; [|done].
  destruct Hu. exists a, b. by apply partition_Some.
Qed.

Lemma anchor_made (u : pystr) : has_slashes u -> anchor u = Ok (made_anchor u).
Proof.
  intros Hu. unfold anchor, made_anchor. by rewrite split_slashes_second.
Qed.

Lemma anchors_made (urls : list pystr) :
  (forall u, u ∈ urls -> has_slashes u) ->
  anchors urls = Ok (map made_anchor urls).
Proof.
  induction urls as [|u urls IH]; intros Hall; [done|].
  cbn [anchors map]. rewrite anchor_made by (apply Hall; left).
  rewrite IH; [done|]. intros v Hv. apply Hall. by right.
Qed.

Lemma strip_scheme_once (u : pystr) :
  ~ has_slashes (strip_scheme u) -> before_slashes (strip_scheme u) = strip_scheme u.
Proof.
  intros Hu. rewrite partition_before_slashes.
  destruct (Str.partition (strip_scheme u) (py "//")) as [[a b]|] eqn:P; [|done].
  destruct Hu. exists a, b. by apply partition_Some.
Qed.

(** The page the program makes.  For a non-empty biography and a non-empty
    list of URLs that each hold [//], it is the biography paragraph, a
    newline, and a paragraph of the anchors joined by [ | ], one per URL in
    order; an anchor's target is the URL and its text is the second piece of
    [u.split('//')].  For a URL that holds [//] once that piece is the URL
    without everything up to and including its [//]. *)
Lemma bio_html_page (bio_file bio : pystr) (urls : list pystr) (w : world) :
  bio <> [] -> urls <> [] -> (forall u, u ∈ urls -> has_slashes u) ->
  fst (bio_html bio_file (Some bio) (Some urls) w)
  = Ok (Some (bio_page bio (map made_anchor urls)))
  /\ fs (snd (bio_html bio_file (Some bio) (Some urls) w)) = fs w
  /\ (forall u, u ∈ urls -> ~ has_slashes (strip_scheme u) ->
                made_anchor u = claimed_anchor u).
Proof.
  intros Hbio Hurls Hall. destruct bio as [|c bio]; [done|].
  destruct urls as [|u urls]; [done|].
  unfold bio_html, bind, lift, print, ret. cbn -[py anchors].
  rewrite (anchors_made (u :: urls) Hall). cbn -[py].
  split; [|split; [done|]].
  - unfold bio_page. do 2 f_equal. by py_norm.
  - intros v _ Hv. unfold made_anchor, claimed_anchor.
    by rewrite strip_scheme_once.
Qed.

Lemma bio_html_page_example :
  fst (bio_html (py "bio.html") (Some (py "Hello"))
         (Some [py "https://example.com/a"]) demo_world)
  = Ok (Some (py "<p>Hello</p>" ++ [10]
              ++ py "<p><a href=https://example.com/a>example.com/a</a></p>")).
Proof.
  refine (eq_trans
            (proj1 (bio_html_page (py "bio.html") (py "Hello")
                      [py "https://example.com/a"] demo_world _ _ _)) _).
  - done.
  - done.
  - intros u ->%list_elem_of_singleton.
    exists (py "https:"), (py "example.com/a"). reflexivity.
  - reflexivity.
Defined.

(** C3, at a URL that holds [//] twice.  For the biography [Hello] and the
    link [https://a//b] the anchor's text is to be the URL without everything
    up to and including its first [//], that is [a//b].  The program takes
    the second piece of [u.split('//')], which ends at the next [//], and
    shows [a]: its page is not the one described. *)
Theorem bio_html_second_slashes :
  fst (bio_html (py "bio.html") (Some (py "Hello")) (Some [py "https://a//b"])
         demo_world)
  = Ok (Some (py "<p>Hello</p>" ++ [10] ++ py "<p><a href=https://a//b>a</a></p>"))
  /\ Str.split (py "https://a//b") (py "//") = [py "https:"; py "a"; py "b"]
  /\ bio_page (py "Hello") (map claimed_anchor [py "https://a//b"])
     = py "<p>Hello</p>" ++ [10] ++ py "<p><a href=https://a//b>a//b</a></p>"
  /\ fst (bio_html (py "bio.html") (Some (py "Hello")) (Some [py "https://a//b"])
            demo_world)
     <> Ok (Some (bio_page (py "Hello") (map claimed_anchor [py "https://a//b"]))).
Proof.
  split; [reflexivity|]. split; [reflexivity|]. split; [reflexivity|].
  vm_compute. discriminate.
Qed.

(** ** The thumbnail *)

Lemma round_aspect_w_bounds (w h : Z) :
  (0 < w)%Z -> (w <= h)%Z -> (300 < h)%Z ->
  let x := Pil.round_aspect_w w h 300 in
  (1 <= x <= 300)%Z /\ (x <= w)%Z /\ (Z.abs (x * h - 300 * w) < h)%Z.
Proof.
  intros Hw Hwh Hh. unfold Pil.round_aspect_w. cbv zeta.
  pose proof (Z.div_mod (300 * w) h ltac:(lia)) as Hdm.
  pose proof (Z.mod_pos_bound (300 * w) h ltac:(lia)) as Hr.
  set (n0 := (300 * w / h)%Z) in *. set (r := ((300 * w) mod h)%Z) in *.
  assert (0 <= n0)%Z as Hn0 by (apply Z.div_pos; lia).
  assert (n0 < w)%Z as Hn1 by nia.
  destruct (r <=? h - r)%Z eqn:E.
  - apply Z.leb_le in E. destruct (Z.max_spec n0 1) as [[? ->]|[? ->]]; nia.
  - apply Z.leb_gt in E. destruct (Z.max_spec (n0 + 1) 1) as [[? ->]|[? ->]]; nia.
Qed.

Lemma round_aspect_h_bounds (w h : Z) :
  (0 < h)%Z -> (h < w)%Z -> (300 < w)%Z ->
  let y := Pil.round_aspect_h w h 300 in
  (1 <= y <= 300)%Z /\ (y <= h)%Z /\ (Z.abs (300 * h - y * w) < w)%Z.
Proof.
  intros Hh Hwh Hw. unfold Pil.round_aspect_h. cbv zeta.
  pose proof (Z.div_mod (300 * h) w ltac:(lia)) as Hdm.
  pose proof (Z.mod_pos_bound (300 * h) w ltac:(lia)) as Hr.
  set (n0 := (300 * h / w)%Z) in *. set (r := ((300 * h) mod w)%Z) in *.
  assert (0 <= n0)%Z as Hn0 by (apply Z.div_pos; lia).
  assert (n0 < h)%Z as Hn1 by nia.
  assert (n0 < 300)%Z as Hn2 by nia.
  destruct ((r =? 0)%Z || (n0 =? 0)%Z || (r * (n0 + 1) <=? (w - r) * n0)%Z) eqn:E.
  - destruct (Z.max_spec n0 1) as [[? ->]|[? ->]]; nia.
  - apply orb_false_iff in E as [E _]. apply orb_false_iff in E as [E1 E2].
    apply Z.eqb_neq in E1, E2.
    destruct (Z.max_spec (n0 + 1) 1) as [[? ->]|[? ->]]; nia.
Qed.

(** The size [thumbnail] gives an image for the box of 300 by 300. *)
Lemma thumbnail_size_bounds (w h : Z) :
  (0 < w)%Z -> (0 < h)%Z ->
  let '(w', h') := Pil.thumbnail_size (300, 300)%Z (w, h) in
  (1 <= w' <= 300)%Z /\ (1 <= h' <= 300)%Z
  /\ (w' <= w)%Z /\ (h' <= h)%Z
  /\ (Z.abs (w' * h - h' * w) < Z.max w h)%Z
  /\ ((w <= 300)%Z -> (h <= 300)%Z -> (w', h') = (w, h))
  /\ ((300 < w)%Z \/ (300 < h)%Z -> Z.max w' h' = 300%Z).
Proof.
  intros Hw Hh. unfold Pil.thumbnail_size.
  destruct ((w <=? 300)%Z && (h <=? 300)%Z) eqn:E.
  - apply andb_true_iff in E as [E1 E2]. apply Z.leb_le in E1, E2.
    repeat split; try lia.
  - assert (300 < w \/ 300 < h)%Z as Hbig.
    { apply andb_false_iff in E as [E|E]; apply Z.leb_gt in E; lia. }
    destruct (w * 300 <=? 300 * h)%Z eqn:E2.
    + apply Z.leb_le in E2.
      pose proof (round_aspect_w_bounds w h ltac:(lia) ltac:(lia) ltac:(lia)) as Hb.
      cbv zeta in Hb. destruct Hb as (Hx1 & Hx2 & Hx3).
      repeat split; try lia.
    + apply Z.leb_gt in E2.
      pose proof (round_aspect_h_bounds w h ltac:(lia) ltac:(lia) ltac:(lia)) as Hb.
      cbv zeta in Hb. destruct Hb as (Hx1 & Hx2 & Hx3).
      repeat split; try lia.
Qed.

(** ** Running computations *)

Lemma bind_run {A B} (c : Py A) (k : A -> Py B) (w w1 : world) (a : A) :
  c w = (Ok a, w1) -> bind c k w = k a w1.
Proof. intros Hc. unfold bind. by rewrite Hc. Qed.

Lemma bind_raise {A B} (c : Py A) (k : A -> Py B) (w w1 : world) (e : exn) :
  c w = (Raise e, w1) -> bind c k w = (Raise e, w1).
Proof. intros Hc. unfold bind. by rewrite Hc. Qed.

Lemma bind_Ok_inv {A B} (c : Py A) (k : A -> Py B) (w w' : world) (b : B) :
  bind c k w = (Ok b, w') ->
  exists a w1, c w = (Ok a, w1) /\ k a w1 = (Ok b, w').
Proof.
  unfold bind. destruct (c w) as [[a|e] w1]; [by eauto|done].
Qed.

Lemma stat_insert (p q : pystr) (n : node) (m : gmap pystr node) :
  p <> [] ->
  stat (<[p := n]> m) q = if decide (p = q) then Some n else stat m q.
Proof.
  intros Hp. unfold stat. destruct q as [|c q].
  - by rewrite decide_False.
  - rewrite lookup_insert. by destruct (decide (p = c :: q)).
Qed.


Lemma parent_ok_dec (m : gmap pystr node) (p : pystr) : Decision (parent_ok m p).
Proof. unfold parent_ok. apply _. Defined.

Lemma creatable_dec (m : gmap pystr node) (p : pystr) : Decision (creatable m p).
Proof. unfold creatable. pose proof (parent_ok_dec m p). apply _. Defined.

Lemma writable_dec (m : gmap pystr node) (p : pystr) : Decision (writable m p).
Proof. unfold writable. pose proof (parent_ok_dec m p). apply _. Defined.

Lemma check_parent_ok (w : world) (p : pystr) :
  parent_ok (fs w) p -> check_parent p w = (Ok tt, w).
Proof.
  unfold parent_ok, check_parent. intros [->|Hd]; [done|].
  destruct (Path.dirname p); [done|]. by rewrite Hd.
Qed.

Lemma check_parent_fail (w : world) (p : pystr) :
  ~ parent_ok (fs w) p -> exists e, check_parent p w = (Raise e, w).
Proof.
  unfold parent_ok, check_parent. intros Hn.
  destruct (Path.dirname p) as [|c d] eqn:Hd; [by destruct Hn; left|].
  destruct (stat (fs w) (c :: d)) as [[|content]|] eqn:Hs; [|by eauto|by eauto].
  destruct Hn. by right.
Qed.

Lemma mkdir_ok (w : world) (p : pystr) :
  creatable (fs w) p -> mkdir p w = (Ok tt, with_node p Dir w).
Proof.
  intros (Hp & Hs & Hpar). unfold mkdir. destruct p as [|c p]; [done|].
  rewrite Hs. unfold bind. by rewrite check_parent_ok.
Qed.

Lemma mkdir_fail (w : world) (p : pystr) :
  ~ creatable (fs w) p -> exists e, mkdir p w = (Raise e, w).
Proof.
  intros Hn. unfold mkdir. destruct p as [|c p]; [by eauto|].
  destruct (stat (fs w) (c :: p)) as [n|] eqn:Hs; [by eauto|].
  destruct (parent_ok_dec (fs w) (c :: p)) as [Hpar|Hpar].
  - destruct Hn. by split.
  - apply check_parent_fail in Hpar as [e He]. exists e.
    unfold bind. by rewrite He.
Qed.

Lemma mkdir_raises (w w' : world) (p : pystr) (e : exn) :
  mkdir p w = (Raise e, w') ->
  e = FileExistsError p \/ e = FileNotFoundError p \/ e = NotADirectoryError p.
Proof.
  unfold mkdir, check_parent, bind, set_node. destruct p as [|c p].
  - intros He. right. left. congruence.
  - destruct (stat (fs w) (c :: p)) as [k|]; [intros He; left; congruence|].
    destruct (Path.dirname (c :: p)) as [|c' d]; [done|].
    destruct (stat (fs w) (c' :: d)) as [[|content]|]; [done| |];
      intros He; right; [right|left]; congruence.
Qed.

Lemma write_bytes_ok (w : world) (p : pystr) (data : list N) :
  writable (fs w) p -> write_bytes p data w = (Ok tt, with_node p (File data) w).
Proof.
  intros (Hp & Hs & Hpar). unfold write_bytes. destruct p as [|c p]; [done|].
  unfold bind. rewrite check_parent_ok by done.
  by destruct (stat (fs w) (c :: p)) as [[|content]|].
Qed.

Lemma write_bytes_fail (w : world) (p : pystr) (data : list N) :
  ~ writable (fs w) p -> exists e, write_bytes p data w = (Raise e, w).
Proof.
  intros Hn. unfold write_bytes. destruct p as [|c p]; [by eauto|].
  destruct (parent_ok_dec (fs w) (c :: p)) as [Hpar|Hpar].
  - destruct (stat (fs w) (c :: p)) as [[|content]|] eqn:Hs; [by eauto| |];
      destruct Hn; (split; [done|split; [by rewrite Hs|done]]).
  - apply check_parent_fail in Hpar as [e He].
    unfold bind. rewrite He.
    destruct (stat (fs w) (c :: p)) as [[|content]|]; by eauto.
Qed.

(** ** [process_image] *)

Lemma process_image_ok `{Pillow} (fp content : pystr) (img0 : image) (w : world) :
  stat (fs w) fp = Some (File content) -> decode content = Some img0 ->
  process_image fp w
  = (Ok (Pil.thumbnail (300, 300)%Z img0), with_output (process_image_log img0) w).
Proof.
  intros Hs Hd. unfold process_image, bind, isfile, Pil.open. rewrite Hs.
  cbn [negb]. rewrite Hs, Hd. unfold Pil.size, process_image_log, with_output.
  destruct (negb (im_width img0 =? im_height img0)%Z);
    destruct ((im_width img0 <? 300)%Z || (im_height img0 <? 300)%Z);
    cbn -[py Pil.thumbnail]; rewrite <- ?app_assoc; reflexivity.
Qed.

Lemma process_image_missing `{Pillow} (fp : pystr) (w : world) :
  (forall content, stat (fs w) fp <> Some (File content)) ->
  process_image fp w = (Raise (ValueError (fp ++ py " is not a file")), w).
Proof.
  intros Hs. unfold process_image, bind, isfile.
  destruct (stat (fs w) fp) as [[|content]|] eqn:E; [done| |done].
  by destruct (Hs content).
Qed.

Lemma process_image_undecodable `{Pillow} (fp content : pystr) (w : world) :
  stat (fs w) fp = Some (File content) -> decode content = None ->
  process_image fp w = (Raise (UnidentifiedImageError fp), w).
Proof.
  intros Hs Hd. unfold process_image, bind, isfile, Pil.open. rewrite Hs.
  cbn [negb]. by rewrite Hs, Hd.
Qed.

Lemma process_image_Ok_inv `{Pillow} (fp : pystr) (img : image) (w w' : world) :
  process_image fp w = (Ok img, w') ->
  exists content img0,
    stat (fs w) fp = Some (File content) /\ decode content = Some img0
    /\ img = Pil.thumbnail (300, 300)%Z img0
    /\ w' = with_output (process_image_log img0) w.
Proof.
  intros Hrun. destruct (stat (fs w) fp) as [[|content]|] eqn:Hs.
  - rewrite process_image_missing in Hrun; [done|]. by intros c; rewrite Hs.
  - destruct (decode content) as [img0|] eqn:Hd.
    + rewrite (process_image_ok _ _ _ _ Hs Hd) in Hrun.
      injection Hrun as <- <-. by exists content, img0.
    + by rewrite (process_image_undecodable _ _ _ Hs Hd) in Hrun.
  - rewrite process_image_missing in Hrun; [done|]. by intros c; rewrite Hs.
Qed.

Lemma process_image_Raise_inv `{Pillow} (fp : pystr) (e : exn) (w w' : world) :
  process_image fp w = (Raise e, w') -> w' = w.
Proof.
  intros Hrun. destruct (stat (fs w) fp) as [[|content]|] eqn:Hs.
  - rewrite process_image_missing in Hrun; [by injection Hrun|].
    by intros c; rewrite Hs.
  - destruct (decode content) as [img0|] eqn:Hd.
    + by rewrite (process_image_ok _ _ _ _ Hs Hd) in Hrun.
    + rewrite (process_image_undecodable _ _ _ Hs Hd) in Hrun. by injection Hrun.
  - rewrite process_image_missing in Hrun; [by injection Hrun|].
    by intros c; rewrite Hs.
Qed.

Lemma thumbnail_size_eq `{Pillow} (img0 : image) :
  Pil.size (Pil.thumbnail (300, 300)%Z img0)
  = Pil.thumbnail_size (300, 300)%Z (Pil.size img0).
Proof.
  unfold Pil.thumbnail.
  destruct (Pil.thumbnail_size (300, 300)%Z (Pil.size img0)) as [w' h'] eqn:E.
  destruct ((w' =? im_width img0)%Z && (h' =? im_height img0)%Z) eqn:E2; [|done].
  apply andb_true_iff in E2 as [E1 E2]. apply Z.eqb_eq in E1, E2.
  unfold Pil.size. by rewrite E1, E2.
Qed.

Lemma thumbnail_size_in_box (w h : Z) :
  let '(w', h') := Pil.thumbnail_size (300, 300)%Z (w, h) in
  (w' <= 300)%Z /\ (h' <= 300)%Z.
Proof.
  unfold Pil.thumbnail_size.
  destruct ((w <=? 300)%Z && (h <=? 300)%Z) eqn:E.
  - apply andb_true_iff in E as [E1 E2]. apply Z.leb_le in E1, E2. lia.
  - assert (300 < w \/ 300 < h)%Z as Hbig.
    { apply andb_false_iff in E as [E|E]; apply Z.leb_gt in E; lia. }
    destruct (w * 300 <=? 300 * h)%Z eqn:E2.
    + apply Z.leb_le in E2. split; [|lia].
      unfold Pil.round_aspect_w. cbv zeta.
      pose proof (Z.div_mod (300 * w) h ltac:(lia)) as Hdm.
      pose proof (Z.mod_pos_bound (300 * w) h ltac:(lia)) as Hr.
      set (n0 := (300 * w / h)%Z) in *. set (r := ((300 * w) mod h)%Z) in *.
      destruct (r <=? h - r)%Z eqn:E3.
      * destruct (Z.max_spec n0 1) as [[? ->]|[? ->]]; nia.
      * apply Z.leb_gt in E3.
        destruct (Z.max_spec (n0 + 1) 1) as [[? ->]|[? ->]]; nia.
    + apply Z.leb_gt in E2. split; [lia|].
      unfold Pil.round_aspect_h. cbv zeta.
      pose proof (Z.div_mod (300 * h) w ltac:(lia)) as Hdm.
      pose proof (Z.mod_pos_bound (300 * h) w ltac:(lia)) as Hr.
      set (n0 := (300 * h / w)%Z) in *. set (r := ((300 * h) mod w)%Z) in *.
      assert (n0 < 300)%Z by nia.
      destruct ((r =? 0)%Z || (n0 =? 0)%Z || (r * (n0 + 1) <=? (w - r) * n0)%Z).
      * destruct (Z.max_spec n0 1) as [[? ->]|[? ->]]; lia.
      * destruct (Z.max_spec (n0 + 1) 1) as [[? ->]|[? ->]]; lia.
Qed.

(** A thumbnail is its own thumbnail. *)
Lemma thumbnail_again `{Pillow} (img : image) :
  Pil.thumbnail (300, 300)%Z (Pil.thumbnail (300, 300)%Z img)
  = Pil.thumbnail (300, 300)%Z img.
Proof.
  pose proof (thumbnail_size_eq img) as Hsz.
  pose proof (thumbnail_size_in_box (im_width img) (im_height img)) as Hbox.
  change (Pil.size img) with (im_width img, im_height img) in Hsz.
  destruct (Pil.thumbnail_size (300, 300)%Z (im_width img, im_height img))
    as [w' h'] eqn:E.
  destruct Hbox as [Hw Hh]. injection Hsz as Hw' Hh'.
  set (t := Pil.thumbnail (300, 300)%Z img) in *.
  unfold Pil.thumbnail at 1. unfold Pil.size, Pil.thumbnail_size.
  rewrite Hw', Hh'.
  replace ((w' <=? 300)%Z && (h' <=? 300)%Z) with true
    by (symmetry; apply andb_true_iff; split; apply Z.leb_le; lia).
  by rewrite <- Hw', <- Hh', !Z.eqb_refl.
Qed.

(** C5. For an image file that opens, [process_image] returns an image of
    at most 300 by 300 pixels whose sides keep the proportion of the
    original up to the rounding of one side to a whole pixel; an image
    already within 300 by 300 is returned as it is, and when a side of the
    original exceeds 300 the larger side of the result is 300. *)
Theorem process_image_thumbnail `{Pillow} (fp content : pystr) (img0 : image)
    (w : world) :
  stat (fs w) fp = Some (File content) -> decode content = Some img0 ->
  (0 < im_width img0)%Z -> (0 < im_height img0)%Z ->
  exists img,
    fst (process_image fp w) = Ok img
    /\ fs (snd (process_image fp w)) = fs w
    /\ (1 <= im_width img <= 300)%Z /\ (1 <= im_height img <= 300)%Z
    /\ (Z.abs (im_width img * im_height img0 - im_height img * im_width img0)
        < Z.max (im_width img0) (im_height img0))%Z
    /\ ((im_width img0 <= 300)%Z -> (im_height img0 <= 300)%Z -> img = img0)
    /\ ((300 < im_width img0)%Z \/ (300 < im_height img0)%Z ->
        Z.max (im_width img) (im_height img) = 300%Z).
Proof.
  intros Hs Hd Hw Hh. exists (Pil.thumbnail (300, 300)%Z img0).
  rewrite (process_image_ok _ _ _ _ Hs Hd). cbn [fst snd].
  split; [done|]. split; [done|].
  pose proof (thumbnail_size_bounds _ _ Hw Hh) as Hb.
  pose proof (thumbnail_size_eq img0) as Hsz.
  change (Pil.size img0) with (im_width img0, im_height img0) in Hsz.
  destruct (Pil.thumbnail_size (300, 300)%Z (im_width img0, im_height img0))
    as [w' h'] eqn:E.
  injection Hsz as -> ->.
  destruct Hb as (Hb1 & Hb2 & _ & _ & Hb3 & Hb4 & Hb5).
  repeat split; try lia.
  - intros Hw3 Hh3. specialize (Hb4 Hw3 Hh3). injection Hb4 as Hb4w Hb4h.
    unfold Pil.thumbnail.
    change (Pil.size img0) with (im_width img0, im_height img0). rewrite E.
    by rewrite Hb4w, Hb4h, !Z.eqb_refl.
Qed.

Lemma process_image_thumbnail_witness :
  exists img,
    fst (@process_image raw_pillow (py "pic.jpg") demo_world) = Ok img
    /\ im_width img = 300%Z /\ im_height img = 150%Z.
Proof.
  destruct (@process_image_thumbnail raw_pillow (py "pic.jpg") [400; 200; 7; 7]
              {| im_width := 400; im_height := 200; im_data := [7; 7] |}
              demo_world)
    as (img & Himg & _); [reflexivity|reflexivity|reflexivity|reflexivity|].
  exists img. split; [exact Himg|].
  vm_compute in Himg. injection Himg as <-. split; reflexivity.
Defined.

(** ** [make_designer] with a missing image *)

Lemma bind_assoc {A B C} (c : Py A) (k : A -> Py B) (k' : B -> Py C) (w : world) :
  bind (bind c k) k' w = bind c (fun a => bind (k a) k') w.
Proof. unfold bind. by destruct (c w) as [[a|e] w1]. Qed.

(** One step of a run: the calls whose outcome needs no case analysis. *)
Ltac run :=
  repeat (progress (cbn [bind isdir isfile print ret raise lift negb fs stdout
                         with_node with_output])
          || rewrite bind_assoc).

Section MissingImage.
Context `{Unicode} `{Pillow} `{Host} `{TextFormat}.

Lemma make_designer_unfold (d n i : pystr) (bio : option pystr)
    (urls : option (list pystr)) :
  make_designer d n i bio urls =
    (is_dir <- isdir (designer_dir d n) ;;
     (if negb is_dir
      then
        print (n ++ py " isn't in catalog. Creating new dir " ++ designer_dir d n) ;;
        mkdir (designer_dir d n)
      else ret tt) ;;
     print (py "processing image " ++ i) ;;
     image <- process_image i ;;
     Pil.save image (image_file d n) ;;
     print (py "Generating info.pb file") ;;
     write_text (info_file d n)
       (gen_info n (Path.basename (image_file d n)) (py "")) ;;
     html_text <- bio_html (bio_file d n) bio urls ;;
     if truthy html_text
     then write_text (bio_file d n) (default [] html_text)
     else ret tt)%py.
Proof. reflexivity. Qed.

(** C2, as the program has it.  When the image path names no regular file,
    [process_image] raises [ValueError] and [make_designer] raises without
    writing any file.  The designer's directory is looked at first: when it
    is already there the catalog is unchanged; when its path (one that does
    not end in [/]) names nothing and the directory can be created, it has
    been created and is there after the failed call, which is the only
    change; when it cannot be created [os.mkdir] raises and the catalog is
    unchanged. *)
Theorem make_designer_missing_image (d n i : pystr) (bio : option pystr)
    (urls : option (list pystr)) (w : world) :
  (forall content, stat (fs w) i <> Some (File content)) ->
  process_image i w = (Raise (ValueError (i ++ py " is not a file")), w)
  /\ exists e w',
      make_designer d n i bio urls w = (Raise e, w')
      /\ (forall p content,
            fs w' !! p = Some (File content) <-> fs w !! p = Some (File content))
      /\ (stat (fs w) (designer_dir d n) = Some Dir ->
          fs w' = fs w /\ e = ValueError (i ++ py " is not a file"))
      /\ (last (designer_dir d n) <> Some Path.sep ->
          creatable (fs w) (designer_dir d n) ->
          stat (fs w) (designer_dir d n) = None
          /\ stat (fs w') (designer_dir d n) = Some Dir
          /\ fs w' = <[designer_dir d n := Dir]> (fs w)
          /\ e = ValueError (i ++ py " is not a file"))
      /\ (last (designer_dir d n) <> Some Path.sep ->
          stat (fs w) (designer_dir d n) <> Some Dir ->
          ~ creatable (fs w) (designer_dir d n) ->
          fs w' = fs w /\ e <> ValueError (i ++ py " is not a file")).
Proof.
  intros Hmissing. split; [by apply process_image_missing|].
  rewrite make_designer_unfold. run.
  destruct (stat (fs w) (designer_dir d n)) as [[|content]|] eqn:Hdd; run.
  - (* the directory exists *)
    erewrite bind_raise by (by apply process_image_missing).
    eexists _, _. split; [reflexivity|]. run.
    split; [done|]. split; [done|]. split.
    + intros _ (_ & Hnone & _). congruence.
    + intros _ Hnot. done.
  - (* a file has the directory's name *)
    match goal with
    | |- context [bind (mkdir ?p) _ ?w1] =>
        destruct (mkdir_fail w1 p) as [e He];
        [intros (_ & Hs & _); cbn [fs] in Hs; congruence
        |pose proof (mkdir_raises _ _ _ _ He) as Hkind;
         erewrite bind_raise by exact He]
    end.
    eexists _, _. split; [reflexivity|]. run.
    split; [done|]. split; [done|]. split.
    + intros _ (_ & Hnone & _). congruence.
    + intros _ _ _. split; [done|]. intros ->. by destruct Hkind as [?|[?|?]].
  - (* the directory is missing *)
    destruct (creatable_dec (fs w) (designer_dir d n)) as [Hc|Hc].
    + erewrite bind_run by (by apply mkdir_ok). run.
      destruct Hc as (Hne & Hnone & Hpar).
      erewrite bind_raise.
      2:{ apply process_image_missing. intros content. run.
          rewrite stat_insert by done.
          destruct (decide (designer_dir d n = i)); [done|apply Hmissing]. }
      eexists _, _. split; [reflexivity|]. run.
      split; [|split; [done|split]].
      * intros p content. destruct (decide (designer_dir d n = p)) as [<-|Hp].
        -- rewrite lookup_insert_eq. split; [done|]. unfold stat in Hnone.
           destruct (designer_dir d n); [done|]. by rewrite Hnone.
        -- by rewrite lookup_insert_ne.
      * intros _ _. split; [done|]. split; [|done].
        rewrite stat_insert by done. by rewrite decide_True.
      * intros _ _ Hnot. destruct Hnot. by repeat split.
    + match goal with
      | |- context [bind (mkdir ?p) _ ?w1] =>
          destruct (mkdir_fail w1 p) as [e He];
          [done
          |pose proof (mkdir_raises _ _ _ _ He) as Hkind;
           erewrite bind_raise by exact He]
      end.
      eexists _, _. split; [reflexivity|]. run.
      split; [done|]. split; [done|]. split.
      * intros _ Hyes. done.
      * intros _ _ _. split; [done|]. intros ->. by destruct Hkind as [?|[?|?]].
Qed.

End MissingImage.

Lemma make_designer_missing_image_witness :
  exists e w',
    make_designer (py "cat") (py "A") (py "nope.png") None None demo_world
    = (Raise e, w')
    /\ (forall p content,
          fs w' !! p = Some (File content)
          <-> fs demo_world !! p = Some (File content))
    /\ stat (fs demo_world) (py "cat/a") = None
    /\ stat (fs w') (py "cat/a") = Some Dir
    /\ e = ValueError (py "nope.png is not a file").
Proof.
  destruct (make_designer_missing_image (py "cat") (py "A") (py "nope.png")
              None None demo_world)
    as (_ & e & w' & Hrun & Hfiles & _ & Hnew & _).
  - intros content. vm_compute. discriminate.
  - exists e, w'. split; [exact Hrun|]. split; [exact Hfiles|].
    destruct Hnew as (Hbefore & Hafter & _ & He).
    + vm_compute. discriminate.
    + split; [vm_compute; discriminate|].
      split; [reflexivity|right; reflexivity].
    + split; [exact Hbefore|]. split; [exact Hafter|exact He].
Defined.

(** With a missing image and a new designer the catalog does change: the
    designer's directory is there after the failed call. *)
Lemma make_designer_missing_image_counterexample :
  (forall content, stat (fs demo_world) (py "nope.png") <> Some (File content))
  /\ fst (make_designer (py "cat") (py "A") (py "nope.png") None None demo_world)
     = Raise (ValueError (py "nope.png is not a file"))
  /\ fs demo_world !! py "cat/a" = None
  /\ fs (snd (make_designer (py "cat") (py "A") (py "nope.png") None None
                demo_world)) !! py "cat/a" = Some Dir
  /\ fs (snd (make_designer (py "cat") (py "A") (py "nope.png") None None
                demo_world)) <> fs demo_world.
Proof.
  split; [intros content; vm_compute; discriminate|].
  split; [reflexivity|]. split; [reflexivity|]. split; [reflexivity|].
  intros Heq. apply (f_equal (fun m => m !! py "cat/a")) in Heq.
  vm_compute in Heq. discriminate.
Qed.

(** ** Paths of a designer's record *)

Lemma join_suffix (a b : pystr) : exists pre, Path.join a b = pre ++ b.
Proof.
  unfold Path.join. destruct (Str.startswith b [Path.sep]); [by exists []|].
  destruct a as [|c a]; [by exists []|].
  destruct (Path.ends_with_sep (c :: a)).
  - by exists (c :: a).
  - exists ((c :: a) ++ [Path.sep]). by rewrite <- app_assoc.
Qed.

Lemma last_join (a b : pystr) : b <> [] -> last (Path.join a b) = last b.
Proof.
  intros Hb. destruct (join_suffix a b) as [pre ->].
  rewrite last_app. destruct (last b) eqn:E; [done|].
  apply last_None in E. done.
Qed.

Section Paths.
Context `{Unicode}.

Lemma last_image_file (d n : pystr) : last (image_file d n) = Some 103.
Proof.
  unfold image_file. rewrite last_join.
  - change (py ".png") with ([46; 112; 110] ++ [103]).
    by rewrite app_assoc, last_snoc.
  - by destruct (designer_dir_name n).
Qed.

Lemma last_info_file (d n : pystr) : last (info_file d n) = Some 98.
Proof. unfold info_file. by rewrite last_join. Qed.

Lemma last_bio_file (d n : pystr) : last (bio_file d n) = Some 108.
Proof. unfold bio_file. by rewrite last_join. Qed.

Lemma image_file_not_bio (d n : pystr) : image_file d n <> bio_file d n.
Proof.
  intros Heq. pose proof (last_image_file d n) as Hl.
  rewrite Heq, last_bio_file in Hl. done.
Qed.

Lemma info_file_not_bio (d n : pystr) : info_file d n <> bio_file d n.
Proof.
  intros Heq. pose proof (last_info_file d n) as Hl.
  rewrite Heq, last_bio_file in Hl. done.
Qed.

Lemma image_file_not_info (d n : pystr) : image_file d n <> info_file d n.
Proof.
  intros Heq. pose proof (last_image_file d n) as Hl.
  rewrite Heq, last_info_file in Hl. done.
Qed.

End Paths.

(** ** What a run keeps *)

Lemma keeps_bind {A B} (P : world -> Prop) (c : Py A) (k : A -> Py B) :
  keeps P c -> (forall a, keeps P (k a)) -> keeps P (bind c k).
Proof.
  intros Hc Hk w Hw. unfold bind. specialize (Hc w Hw).
  destruct (c w) as [[a|e] w1]; [by apply Hk|done].
Qed.

Lemma keeps_ret {A} (P : world -> Prop) (a : A) : keeps P (ret a).
Proof. by intros w Hw. Qed.

Lemma keeps_if {A} (P : world -> Prop) (b : bool) (c1 c2 : Py A) :
  keeps P c1 -> keeps P c2 -> keeps P (if b then c1 else c2).
Proof. by destruct b. Qed.

(** The file [p] holds [content]. *)
Lemma keeps_file_print (p content s : pystr) :
  keeps (fun w => stat (fs w) p = Some (File content)) (print s).
Proof. by intros w Hw. Qed.

Lemma keeps_file_isdir (p content q : pystr) :
  keeps (fun w => stat (fs w) p = Some (File content)) (isdir q).
Proof. by intros w Hw. Qed.

Lemma keeps_file_mkdir (p content q : pystr) :
  keeps (fun w => stat (fs w) p = Some (File content)) (mkdir q).
Proof.
  intros w Hw. destruct (creatable_dec (fs w) q) as [Hc|Hc].
  - rewrite mkdir_ok by done. destruct Hc as (Hq & Hnone & _).
    cbn [snd with_node fs]. rewrite stat_insert by done.
    destruct (decide (q = p)) as [->|]; [congruence|done].
  - by destruct (mkdir_fail w q Hc) as [e ->].
Qed.

Lemma keeps_file_write_bytes (p content q : pystr) (data : list N) :
  q <> p ->
  keeps (fun w => stat (fs w) p = Some (File content)) (write_bytes q data).
Proof.
  intros Hne w Hw. destruct (writable_dec (fs w) q) as [Hc|Hc].
  - rewrite write_bytes_ok by done. destruct Hc as (Hq & _).
    cbn [snd with_node fs]. rewrite stat_insert by done.
    by rewrite decide_False.
  - by destruct (write_bytes_fail w q data Hc) as [e ->].
Qed.

Lemma keeps_file_process_image `{Pillow} (p content fp : pystr) :
  keeps (fun w => stat (fs w) p = Some (File content)) (process_image fp).
Proof.
  intros w Hw. destruct (process_image fp w) as [[img|e] w'] eqn:Hrun.
  - apply process_image_Ok_inv in Hrun as (? & ? & _ & _ & _ & ->). done.
  - apply process_image_Raise_inv in Hrun as ->. done.
Qed.

(** ** The biography block *)

Lemma bio_html_fs (biof : pystr) (bio : option pystr)
    (urls : option (list pystr)) (w : world) :
  fs (snd (bio_html biof bio urls w)) = fs w.
Proof.
  unfold bio_html. destruct bio as [[|c bio]|]; run.
  - by destruct (stat (fs w) biof) as [[|?]|].
  - destruct urls as [[|u urls]|]; run; [done| |done].
    by destruct (anchors (u :: urls)).
  - by destruct (stat (fs w) biof) as [[|?]|].
Qed.

Lemma bio_html_ext (biof : pystr) (bio : option pystr)
    (urls : option (list pystr)) (w1 w2 : world) :
  stat (fs w1) biof = stat (fs w2) biof ->
  fst (bio_html biof bio urls w1) = fst (bio_html biof bio urls w2).
Proof.
  intros Heq. unfold bio_html. destruct bio as [[|c bio]|]; run.
  - rewrite Heq. by destruct (stat (fs w2) biof) as [[|?]|].
  - destruct urls as [[|u urls]|]; run; [done| |done].
    by destruct (anchors (u :: urls)).
  - rewrite Heq. by destruct (stat (fs w2) biof) as [[|?]|].
Qed.

Lemma bio_html_absent_existing (biof content : pystr) (bio : option pystr)
    (urls : option (list pystr)) (w : world) :
  truthy bio = false -> stat (fs w) biof = Some (File content) ->
  fst (bio_html biof bio urls w) = Ok None.
Proof.
  intros Hbio Hs. unfold bio_html.
  destruct bio as [[|c bio]|]; [|done|]; run; by rewrite Hs.
Qed.

Lemma bio_html_absent_missing (biof : pystr) (bio : option pystr)
    (urls : option (list pystr)) (w : world) :
  truthy bio = false -> (forall content, stat (fs w) biof <> Some (File content)) ->
  fst (bio_html biof bio urls w) = Ok (Some (py "N/A")).
Proof.
  intros Hbio Hs. unfold bio_html.
  destruct bio as [[|c bio]|]; [|done|]; run;
    (destruct (stat (fs w) biof) as [[|content]|] eqn:E; [done| |done];
     by destruct (Hs content)).
Qed.

Lemma print_Ok_inv (s : pystr) (w w' : world) (u : unit) :
  print s w = (Ok u, w') -> fs w' = fs w.
Proof. unfold print. by intros [= _ <-]. Qed.

Lemma mkdir_Ok_inv (p : pystr) (w w' : world) (u : unit) :
  mkdir p w = (Ok u, w') -> creatable (fs w) p /\ w' = with_node p Dir w.
Proof.
  intros Hrun. destruct (creatable_dec (fs w) p) as [Hc|Hc].
  - rewrite mkdir_ok in Hrun by done. by injection Hrun as _ <-.
  - destruct (mkdir_fail w p Hc) as [e He]. congruence.
Qed.

Lemma write_bytes_Ok_inv (p : pystr) (data : list N) (w w' : world) (u : unit) :
  write_bytes p data w = (Ok u, w') ->
  writable (fs w) p /\ w' = with_node p (File data) w.
Proof.
  intros Hrun. destruct (writable_dec (fs w) p) as [Hc|Hc].
  - rewrite write_bytes_ok in Hrun by done. by injection Hrun as _ <-.
  - destruct (write_bytes_fail w p data Hc) as [e He]. congruence.
Qed.

(** ** Successful runs of [make_designer] *)

Section Runs.
Context `{Unicode} `{Pillow} `{Host} `{TextFormat}.

(** The run from the image on, once the designer's directory is there. *)
Lemma record_written (d n i : pystr) (bio : option pystr)
    (urls : option (list pystr)) (w w' : world) :
  (print (py "processing image " ++ i) ;;
   image <- process_image i ;;
   Pil.save image (image_file d n) ;;
   print (py "Generating info.pb file") ;;
   write_text (info_file d n) (info_text d n) ;;
   html_text <- bio_html (bio_file d n) bio urls ;;
   if truthy html_text
   then write_text (bio_file d n) (default [] html_text)
   else ret tt)%py w = (Ok tt, w') ->
  exists (content : list N) (img0 : image) (html : option pystr),
    let m2 := <[image_file d n :=
                  File (encode_png (Pil.thumbnail (300, 300)%Z img0))]> (fs w) in
    let m3 := <[info_file d n := File (encode_text (info_text d n))]> m2 in
    stat (fs w) i = Some (File content) /\ decode content = Some img0
    /\ writable (fs w) (image_file d n)
    /\ writable m2 (info_file d n)
    /\ (forall w3, fs w3 = m3 ->
                   fst (bio_html (bio_file d n) bio urls w3) = Ok html)
    /\ (truthy html = true /\ writable m3 (bio_file d n)
        /\ fs w' = <[bio_file d n := File (encode_text (default [] html))]> m3
        \/ truthy html = false /\ fs w' = m3).
Proof.
  intros Hrun.
  apply bind_Ok_inv in Hrun as ([] & w0 & Hp0 & Hrun).
  apply print_Ok_inv in Hp0.
  apply bind_Ok_inv in Hrun as (img & w1 & Himg & Hrun).
  apply process_image_Ok_inv in Himg as (content & img0 & Hs & Hd & -> & Hw1).
  apply bind_Ok_inv in Hrun as ([] & w2 & Hsave & Hrun).
  apply write_bytes_Ok_inv in Hsave as [Hav Hw2].
  apply bind_Ok_inv in Hrun as ([] & w3 & Hp3 & Hrun).
  apply print_Ok_inv in Hp3.
  apply bind_Ok_inv in Hrun as ([] & w4 & Hinfo & Hrun).
  apply write_bytes_Ok_inv in Hinfo as [Hin Hw4].
  apply bind_Ok_inv in Hrun as (html & w5 & Hbio & Hrun).
  pose proof (bio_html_fs (bio_file d n) bio urls w4) as Hw5.
  rewrite Hbio in Hw5. cbn [snd] in Hw5.
  assert (fs w1 = fs w) as Hfs1 by (subst w1; cbn [with_output fs]; done).
  assert (fs w2 = <[image_file d n :=
                      File (encode_png (Pil.thumbnail (300, 300)%Z img0))]> (fs w))
    as Hfs2 by (subst w2; cbn [with_node fs]; by rewrite Hfs1).
  assert (fs w4 = <[info_file d n := File (encode_text (info_text d n))]> (fs w2))
    as Hfs4 by (subst w4; cbn [with_node fs]; by rewrite Hp3).
  exists content, img0, html. cbv zeta. rewrite <- Hfs2, <- Hfs4.
  split; [by rewrite <- Hp0|]. split; [done|].
  split; [by rewrite <- Hfs1|]. split; [by rewrite <- Hp3|].
  split.
  - intros w6 Hw6. erewrite bio_html_ext; [by rewrite Hbio|]. by rewrite Hw6.
  - destruct (truthy html) eqn:Ht.
    + left. apply write_bytes_Ok_inv in Hrun as [Hw6 ->].
      cbn [with_node fs]. by rewrite Hw5 in *.
    + right. injection Hrun as <-. done.
Qed.

Lemma record_intro (d n i : pystr) (bio : option pystr)
    (urls : option (list pystr)) (w : world) (content : list N) (img0 : image)
    (html : option pystr) :
  let m2 := <[image_file d n :=
                File (encode_png (Pil.thumbnail (300, 300)%Z img0))]> (fs w) in
  let m3 := <[info_file d n := File (encode_text (info_text d n))]> m2 in
  stat (fs w) i = Some (File content) -> decode content = Some img0 ->
  writable (fs w) (image_file d n) ->
  writable m2 (info_file d n) ->
  (forall w3, fs w3 = m3 -> fst (bio_html (bio_file d n) bio urls w3) = Ok html) ->
  (truthy html = true -> writable m3 (bio_file d n)) ->
  exists w',
    (print (py "processing image " ++ i) ;;
     image <- process_image i ;;
     Pil.save image (image_file d n) ;;
     print (py "Generating info.pb file") ;;
     write_text (info_file d n) (info_text d n) ;;
     html_text <- bio_html (bio_file d n) bio urls ;;
     if truthy html_text
     then write_text (bio_file d n) (default [] html_text)
     else ret tt)%py w = (Ok tt, w')
    /\ fs w' = if truthy html
               then <[bio_file d n := File (encode_text (default [] html))]> m3
               else m3.
Proof.
  intros m2 m3 Hs Hd Hav Hin Hbio Hbw. run.
  erewrite bind_run by (by apply (process_image_ok i content img0)).
  unfold Pil.save. erewrite bind_run by (by apply write_bytes_ok). run.
  unfold write_text at 1. erewrite bind_run by (by apply write_bytes_ok).
  match goal with
  | |- context [bind (bio_html ?f ?b ?u) _ ?w3] =>
      pose proof (Hbio w3 eq_refl) as Hres;
      pose proof (bio_html_fs f b u w3) as Hfs;
      destruct (bio_html f b u w3) as [r w4] eqn:Hrun
  end.
  cbn [fst snd] in Hres, Hfs. subst r.
  erewrite bind_run by exact Hrun.
  destruct (truthy html) eqn:Ht.
  - unfold write_text. rewrite write_bytes_ok by (rewrite Hfs; by apply Hbw).
    eexists. split; [reflexivity|]. cbn [with_node fs]. by rewrite Hfs.
  - eexists. split; [reflexivity|]. done.
Qed.

(** A run succeeds exactly when the files allow it, and then leaves the
    files [synced] describes. *)
Lemma make_designer_Ok_synced (d n i : pystr) (bio : option pystr)
    (urls : option (list pystr)) (w w' : world) :
  make_designer d n i bio urls w = (Ok tt, w') ->
  synced d n i bio urls (fs w) (fs w').
Proof.
  rewrite make_designer_unfold. intros Hrun.
  apply bind_Ok_inv in Hrun as (is_dir & w0 & Hdir & Hrun).
  injection Hdir as <- <-.
  apply bind_Ok_inv in Hrun as ([] & w1 & Hmk & Hrun).
  apply record_written in Hrun
    as (content & img0 & html & Hs & Hd & Hav & Hin & Hbio & Hend).
  exists (fs w1), content, img0, html. cbv zeta.
  refine (conj _ (conj Hs (conj Hd (conj Hav (conj Hin (conj Hbio Hend)))))).
  destruct (stat (fs w) (designer_dir d n)) as [[|c]|] eqn:Hdd.
  - left. injection Hmk as <-. done.
  - apply bind_Ok_inv in Hmk as ([] & w2 & Hp & Hmk).
    apply print_Ok_inv in Hp. apply mkdir_Ok_inv in Hmk as [(_ & Hnone & _) _].
    rewrite Hp in Hnone. congruence.
  - right. apply bind_Ok_inv in Hmk as ([] & w2 & Hp & Hmk).
    apply print_Ok_inv in Hp. apply mkdir_Ok_inv in Hmk as [Hc ->].
    rewrite Hp in Hc. split; [done|]. cbn [with_node fs]. by rewrite Hp.
Qed.

Lemma make_designer_synced_Ok (d n i : pystr) (bio : option pystr)
    (urls : option (list pystr)) (w : world) (m' : gmap pystr node) :
  synced d n i bio urls (fs w) m' ->
  exists w', make_designer d n i bio urls w = (Ok tt, w') /\ fs w' = m'.
Proof.
  intros (m1 & content & img0 & html & Hdir & Hs & Hd & Hav & Hin & Hbio & Hend).
  cbv zeta in *. rewrite make_designer_unfold.
  assert (exists w1, bind (isdir (designer_dir d n))
            (fun is_dir =>
               if negb is_dir
               then bind (print (n ++ py " isn't in catalog. Creating new dir "
                                   ++ designer_dir d n))
                         (fun _ => mkdir (designer_dir d n))
               else ret tt) w = (Ok tt, w1) /\ fs w1 = m1) as (w1 & Hw1 & Hm1).
  { run. destruct Hdir as [[Hdd ->]|[Hc ->]].
    - rewrite Hdd. run. by eexists.
    - destruct Hc as (Hne & Hnone & Hpar). rewrite Hnone. run.
      rewrite mkdir_ok by done. by eexists. }
  subst m1.
  destruct (record_intro d n i bio urls w1 content img0 html Hs Hd Hav Hin Hbio)
    as (w' & Hrun & Hfs).
  { intros Ht. destruct Hend as [(_ & Hbw & _)|[Hf _]]; [done|congruence]. }
  exists w'. split.
  - rewrite <- bind_assoc. erewrite bind_run by exact Hw1. exact Hrun.
  - rewrite Hfs. destruct Hend as [(-> & _ & ->)|[-> ->]]; done.
Qed.

End Runs.

(** ** Writing files one after another *)

Lemma dir_after_write (m : gmap pystr node) (p q : pystr) (data : list N) :
  writable m p -> stat m q = Some Dir -> stat (<[p := File data]> m) q = Some Dir.
Proof.
  intros (Hp & Hnd & _) Hq. rewrite stat_insert by done.
  destruct (decide (p = q)) as [->|]; [done|done].
Qed.

Lemma parent_ok_after_write (m : gmap pystr node) (p q : pystr) (data : list N) :
  writable m p -> parent_ok m q -> parent_ok (<[p := File data]> m) q.
Proof.
  intros Hw [Hq|Hq]; [by left|right]. by apply dir_after_write.
Qed.

Lemma writable_after_write (m : gmap pystr node) (p q : pystr) (data : list N) :
  writable m p -> writable m q -> writable (<[p := File data]> m) q.
Proof.
  intros Hp (Hq & Hnd & Hpar). split; [done|]. split.
  - rewrite stat_insert by apply Hp.
    destruct (decide (p = q)); [done|done].
  - by apply parent_ok_after_write.
Qed.

Lemma writable_same (m : gmap pystr node) (p : pystr) (data : list N) :
  writable m p -> writable (<[p := File data]> m) p.
Proof. intros Hp. by apply writable_after_write. Qed.

(** Lookups in a map built by insertions, by cases on the keys. *)
Ltac map_cases :=
  apply map_eq; intros ?;
  repeat (rewrite lookup_insert; case_decide; subst; try done);
  try congruence.

Lemma stat_eq_lookup (m1 m2 : gmap pystr node) (p : pystr) :
  m1 !! p = m2 !! p -> stat m1 p = stat m2 p.
Proof. intros Heq. unfold stat. by destruct p. Qed.

Section Twice.
Context `{Unicode} `{Pillow} `{Host} `{TextFormat}.

(** What a successful run leaves in the avatar and in [info.pb]. *)
Lemma synced_files (d n i : pystr) (bio : option pystr)
    (urls : option (list pystr)) (m m' : gmap pystr node) :
  synced d n i bio urls m m' ->
  stat m' (info_file d n) = Some (File (encode_text (info_text d n)))
  /\ exists content img0,
      stat m i = Some (File content) /\ decode content = Some img0
      /\ stat m' (image_file d n)
         = Some (File (encode_png (Pil.thumbnail (300, 300)%Z img0))).
Proof.
  intros (m1 & content & img0 & html & Hdir & Hs & Hd & Hav & Hin & Hbio & Hend).
  cbv zeta in *.
  assert (stat m i = Some (File content)) as Hsm.
  { destruct Hdir as [[_ ->]|[(Hne & _) ->]]; [done|].
    rewrite stat_insert in Hs by done.
    destruct (decide (designer_dir d n = i)); [done|done]. }
  pose proof (image_file_not_info d n) as Hai.
  pose proof (image_file_not_bio d n) as Hab.
  pose proof (info_file_not_bio d n) as Hib.
  destruct Hav as (Hav0 & _). destruct Hin as (Hin0 & _).
  split.
  - destruct Hend as [(_ & (Hb0 & _) & ->)|[_ ->]].
    + rewrite !stat_insert by done.
      rewrite decide_False by done. by rewrite decide_True.
    + rewrite !stat_insert by done. by rewrite decide_True.
  - exists content, img0. split; [done|]. split; [done|].
    destruct Hend as [(_ & (Hb0 & _) & ->)|[_ ->]].
    + rewrite !stat_insert by done.
      rewrite !decide_False by done. by rewrite decide_True.
    + rewrite !stat_insert by done.
      rewrite decide_False by done. by rewrite decide_True.
Qed.

Lemma bio_html_given (biof : pystr) (bio : option pystr)
    (urls : option (list pystr)) (w1 w2 : world) :
  truthy bio = true ->
  fst (bio_html biof bio urls w1) = fst (bio_html biof bio urls w2).
Proof.
  intros Hbio. unfold bio_html. destruct bio as [[|c bio]|]; [done| |done]. run.
  destruct urls as [[|u urls]|]; run; [done| |done].
  by destruct (anchors (u :: urls)).
Qed.

(** After a successful run, another run with the same arguments succeeds and
    leaves every file as it is, provided the image file then holds an image
    with the same thumbnail. *)
Lemma synced_again_thumbnail (d n i : pystr) (bio : option pystr)
    (urls : option (list pystr)) (m m' : gmap pystr node) :
  synced d n i bio urls m m' ->
  (forall content img0,
     stat m i = Some (File content) -> decode content = Some img0 ->
     exists content2 img2,
       stat m' i = Some (File content2) /\ decode content2 = Some img2
       /\ Pil.thumbnail (300, 300)%Z img2 = Pil.thumbnail (300, 300)%Z img0) ->
  synced d n i bio urls m' m'.
Proof.
  intros Hrun Himg.
  destruct (synced_files _ _ _ _ _ _ _ Hrun)
    as (Hinfo' & content' & img0' & Hsm & Hd' & Hav').
  destruct Hrun
    as (m1 & content & img0 & html & Hdir & Hs & Hd & Hav & Hin & Hbio & Hend).
  cbv zeta in *.
  assert (content' = content) as ->.
  { destruct Hdir as [[_ ->]|[(Hne & _) ->]]; [congruence|].
    rewrite stat_insert in Hs by done.
    destruct (decide (designer_dir d n = i)); [done|congruence]. }
  assert (img0' = img0) as -> by congruence.
  destruct (Himg content img0 Hsm Hd) as (content2 & img2 & Hs2 & Hd2 & Hth).
  set (png := File (encode_png (Pil.thumbnail (300, 300)%Z img0))) in *.
  set (txt := File (encode_text (info_text d n))) in *.
  pose proof (image_file_not_info d n) as Hai.
  pose proof (image_file_not_bio d n) as Hab.
  pose proof (info_file_not_bio d n) as Hib.
  assert (stat m1 (designer_dir d n) = Some Dir) as Hdd1.
  { destruct Hdir as [[Hdd ->]|[(Hne & _) ->]]; [done|].
    rewrite stat_insert by done. by rewrite decide_True. }
  (* the state of the files after the two writes every run makes *)
  set (m2 := <[image_file d n := png]> m1) in *.
  set (m3 := <[info_file d n := txt]> m2) in *.
  assert (writable m3 (image_file d n)) as Hav3.
  { apply writable_after_write; [done|]. by apply writable_same. }
  assert (writable m3 (info_file d n)) as Hin3 by (by apply writable_same).
  assert (stat m3 (designer_dir d n) = Some Dir) as Hdd3.
  { apply dir_after_write; [done|]. by apply dir_after_write. }
  assert (<[info_file d n := txt]> (<[image_file d n := png]> m3) = m3) as Hm3.
  { subst m3 m2. map_cases. }
  destruct Hend as [(Ht & Hbw & Hm')|[Ht Hm']].
  - (* the first run wrote bio.html *)
    set (page := File (encode_text (default [] html))) in *.
    set (m4 := <[bio_file d n := page]> m3) in *.
    assert (writable m4 (image_file d n)) as Hav4
      by (by apply writable_after_write).
    assert (writable m4 (info_file d n)) as Hin4
      by (by apply writable_after_write).
    assert (writable (<[image_file d n := png]> m4) (info_file d n)) as Hin5
      by (by apply writable_after_write).
    assert (stat m4 (designer_dir d n) = Some Dir) as Hdd4
      by (by apply dir_after_write).
    rewrite Hm' in Hs2 |- *. clear Hm'.
    destruct (truthy bio) eqn:Hb.
    + (* from the biography given: the same page again *)
      exists m4, content2, img2, html. cbv zeta. rewrite Hth. fold png txt.
      split; [by left|]. split; [done|]. split; [done|].
      split; [done|]. split; [done|]. split.
      * intros w3 _. rewrite <- (Hbio {| fs := m3; stdout := [] |} eq_refl).
        by apply bio_html_given.
      * left. split; [done|]. split.
        -- apply writable_after_write; [done|].
           apply writable_after_write; [done|]. by apply writable_same.
        -- subst m4 m3 m2. map_cases.
    + (* the placeholder: it is there now, and is left alone *)
      exists m4, content2, img2, None. cbv zeta. rewrite Hth. fold png txt.
      split; [by left|]. split; [done|]. split; [done|].
      split; [done|]. split; [done|]. split.
      * intros w3 Hw3.
        apply (bio_html_absent_existing _ (encode_text (default [] html)));
          [done|]. rewrite Hw3. subst m4.
        rewrite !stat_insert by (apply Hin3 || apply Hav3 || apply Hbw).
        rewrite !decide_False by done. by rewrite decide_True.
      * right. split; [done|]. subst m4 m3 m2. map_cases.
  - (* the first run left bio.html alone *)
    rewrite Hm' in Hs2 |- *. clear Hm'.
    exists m3, content2, img2, html. cbv zeta. rewrite Hth. fold png txt.
    rewrite Hm3.
    split; [by left|]. split; [done|]. split; [done|].
    split; [done|]. split; [by apply writable_after_write|].
    split; [done|]. by right.
Qed.

(** After a successful run whose image file is as it was, another run with
    the same arguments succeeds and leaves every file as it is. *)
Lemma synced_again (d n i : pystr) (bio : option pystr)
    (urls : option (list pystr)) (m m' : gmap pystr node) :
  synced d n i bio urls m m' -> stat m' i = stat m i ->
  synced d n i bio urls m' m'.
Proof.
  intros Hrun Himg. apply (synced_again_thumbnail _ _ _ _ _ m); [done|].
  intros content img0 Hs Hd. exists content, img0. by rewrite Himg.
Qed.

(** With a codec that gives back what it encoded, the same holds when the
    image is the avatar itself and the first run has replaced it by its
    thumbnail. *)
Lemma synced_again_in_place (d n : pystr) (bio : option pystr)
    (urls : option (list pystr)) (m m' : gmap pystr node) :
  png_lossless ->
  synced d n (image_file d n) bio urls m m' ->
  synced d n (image_file d n) bio urls m' m'.
Proof.
  intros Hcodec Hrun. apply (synced_again_thumbnail _ _ _ _ _ m); [done|].
  intros content img0 Hs Hd.
  destruct (synced_files _ _ _ _ _ _ _ Hrun)
    as (_ & content' & img0' & Hs' & Hd' & Hav).
  assert (content' = content) as -> by congruence.
  assert (img0' = img0) as -> by congruence.
  exists (encode_png (Pil.thumbnail (300, 300)%Z img0)),
         (Pil.thumbnail (300, 300)%Z img0).
  split; [done|]. split; [apply Hcodec|apply thumbnail_again].
Qed.

(** A run leaves alone every path other than the designer's directory and
    the three files in it. *)
Lemma synced_elsewhere (d n i : pystr) (bio : option pystr)
    (urls : option (list pystr)) (m m' : gmap pystr node) (p : pystr) :
  synced d n i bio urls m m' ->
  p <> designer_dir d n -> p <> image_file d n -> p <> info_file d n ->
  p <> bio_file d n ->
  m' !! p = m !! p.
Proof.
  intros (m1 & content & img0 & html & Hdir & _ & _ & _ & _ & _ & Hend).
  intros Hdd Hav Hin Hbf. cbv zeta in *.
  assert (m1 !! p = m !! p) as <-.
  { destruct Hdir as [[_ ->]|[_ ->]]; [done|]. by rewrite lookup_insert_ne. }
  destruct Hend as [(_ & _ & ->)|[_ ->]]; by rewrite !lookup_insert_ne.
Qed.

(** C1. When a call of [make_designer] has succeeded and the image file is
    as it was before the call, a second call with the same arguments
    succeeds too, and the avatar and [info.pb] hold the same bytes after
    both calls: the thumbnail of the image and the text of the record.  The
    second call leaves every file as the first call left it. *)
Theorem make_designer_twice (d n i : pystr) (bio : option pystr)
    (urls : option (list pystr)) (w w1 : world) :
  make_designer d n i bio urls w = (Ok tt, w1) ->
  stat (fs w1) i = stat (fs w) i ->
  exists (w2 : world) (content : list N) (img0 : image),
    make_designer d n i bio urls w1 = (Ok tt, w2)
    /\ stat (fs w) i = Some (File content) /\ decode content = Some img0
    /\ stat (fs w1) (info_file d n) = Some (File (encode_text (info_text d n)))
    /\ stat (fs w2) (info_file d n) = Some (File (encode_text (info_text d n)))
    /\ stat (fs w1) (image_file d n)
       = Some (File (encode_png (Pil.thumbnail (300, 300)%Z img0)))
    /\ stat (fs w2) (image_file d n)
       = Some (File (encode_png (Pil.thumbnail (300, 300)%Z img0)))
    /\ fs w2 = fs w1.
Proof.
  intros Hrun Himg. apply make_designer_Ok_synced in Hrun.
  pose proof (synced_again _ _ _ _ _ _ _ Hrun Himg) as Hagain.
  destruct (make_designer_synced_Ok _ _ _ _ _ w1 _ Hagain) as (w2 & Hrun2 & Hfs2).
  destruct (synced_files _ _ _ _ _ _ _ Hrun)
    as (Hinfo & content & img0 & Hs & Hd & Hav).
  exists w2, content, img0. rewrite Hfs2. by repeat split.
Qed.

(** The second call also succeeds and changes no file when the image given
    is the avatar itself, for a codec that gives back what it encoded. *)
Lemma make_designer_twice_in_place (d n : pystr) (bio : option pystr)
    (urls : option (list pystr)) (w w1 : world) :
  png_lossless ->
  make_designer d n (image_file d n) bio urls w = (Ok tt, w1) ->
  exists w2,
    make_designer d n (image_file d n) bio urls w1 = (Ok tt, w2)
    /\ fs w2 = fs w1.
Proof.
  intros Hcodec Hrun. apply make_designer_Ok_synced in Hrun.
  pose proof (synced_again_in_place _ _ _ _ _ _ Hcodec Hrun) as Hagain.
  by apply make_designer_synced_Ok.
Qed.

(** The image file is as it was whenever it is none of the record's files. *)
Lemma make_designer_keeps_image (d n i : pystr) (bio : option pystr)
    (urls : option (list pystr)) (w w1 : world) :
  make_designer d n i bio urls w = (Ok tt, w1) ->
  i <> image_file d n -> i <> info_file d n -> i <> bio_file d n ->
  stat (fs w1) i = stat (fs w) i.
Proof.
  intros Hrun Hav Hin Hbf. apply make_designer_Ok_synced in Hrun.
  destruct (decide (i = designer_dir d n)) as [->|Hdd].
  - destruct Hrun as (m1 & content & img0 & html & Hdir & Hs & _).
    destruct Hdir as [[Hd ->]|[(Hne & _) ->]]; [congruence|].
    rewrite stat_insert, decide_True in Hs by done. done.
  - apply stat_eq_lookup. by eapply synced_elsewhere.
Qed.

End Twice.

Lemma make_designer_twice_witness :
  exists w2,
    make_designer (py "cat") (py "Theo Salvadore") (py "pic.jpg") None None
      (snd (make_designer (py "cat") (py "Theo Salvadore") (py "pic.jpg")
              None None demo_world))
    = (Ok tt, w2)
    /\ stat (fs w2) (py "cat/theosalvadore/theosalvadore.png")
       = Some (File [300; 150; 7; 7]).
Proof.
  destruct (make_designer_twice (py "cat") (py "Theo Salvadore") (py "pic.jpg")
              None None demo_world
              (snd (make_designer (py "cat") (py "Theo Salvadore") (py "pic.jpg")
                      None None demo_world)))
    as (w2 & content & img0 & Hrun & Hs & Hd & _ & _ & _ & Hav & _).
  - vm_compute. reflexivity.
  - vm_compute. reflexivity.
  - exists w2. split; [exact Hrun|].
    vm_compute in Hs. injection Hs as <-.
    vm_compute in Hd. injection Hd as <-.
    exact Hav.
Defined.

(** ** The biography file when no biography is given *)

Section BioAbsent.
Context `{Unicode} `{Pillow} `{Host} `{TextFormat}.

Lemma make_designer_keeps_bio (d n i : pystr) (bio : option pystr)
    (urls : option (list pystr)) (content : list N) :
  truthy bio = false ->
  keeps (fun w => stat (fs w) (bio_file d n) = Some (File content))
        (make_designer d n i bio urls).
Proof.
  intros Hbio. rewrite make_designer_unfold.
  apply keeps_bind; [apply keeps_file_isdir|intros is_dir].
  apply keeps_bind.
  { apply keeps_if; [|apply keeps_ret].
    apply keeps_bind; [apply keeps_file_print|intros _].
    apply keeps_file_mkdir. }
  intros _. apply keeps_bind; [apply keeps_file_print|intros _].
  apply keeps_bind; [apply keeps_file_process_image|intros img].
  apply keeps_bind.
  { apply keeps_file_write_bytes, image_file_not_bio. }
  intros _. apply keeps_bind; [apply keeps_file_print|intros _].
  apply keeps_bind.
  { apply keeps_file_write_bytes, info_file_not_bio. }
  intros _ w Hw.
  pose proof (bio_html_absent_existing _ _ bio urls w Hbio Hw) as Hres.
  pose proof (bio_html_fs (bio_file d n) bio urls w) as Hfs.
  unfold bind. destruct (bio_html (bio_file d n) bio urls w) as [r w1].
  cbn [fst snd] in *. subst r. cbn [truthy ret snd]. by rewrite Hfs.
Qed.

(** C8. With no biography given: a [bio.html] that exists holds the same
    bytes after the call, however the call ends; and when no [bio.html]
    exists, a call that succeeds has written exactly [N/A] to it. *)
Theorem make_designer_bio_absent (d n i : pystr) (bio : option pystr)
    (urls : option (list pystr)) (w : world) :
  truthy bio = false ->
  (forall content,
     stat (fs w) (bio_file d n) = Some (File content) ->
     stat (fs (snd (make_designer d n i bio urls w))) (bio_file d n)
     = Some (File content))
  /\ (forall w',
        (forall content, stat (fs w) (bio_file d n) <> Some (File content)) ->
        make_designer d n i bio urls w = (Ok tt, w') ->
        stat (fs w') (bio_file d n) = Some (File (encode_text (py "N/A")))).
Proof.
  intros Hbio. split.
  - intros content Hc. by apply (make_designer_keeps_bio d n i bio urls content).
  - intros w' Hnone Hrun. apply make_designer_Ok_synced in Hrun.
    destruct Hrun
      as (m1 & content & img0 & html & Hdir & _ & _ & Hav & Hin & Hres & Hend).
    cbv zeta in *.
    pose proof (image_file_not_bio d n) as Hab.
    pose proof (info_file_not_bio d n) as Hib.
    assert (html = Some (py "N/A")) as ->.
    { set (m3 := <[info_file d n := _]> (<[image_file d n := _]> m1)) in *.
      specialize (Hres {| fs := m3; stdout := [] |} eq_refl).
      rewrite bio_html_absent_missing in Hres; [congruence|done|].
      intros c. change (stat m3 (bio_file d n) <> Some (File c)). subst m3.
      rewrite !stat_insert by (apply Hin || apply Hav).
      rewrite !decide_False by done.
      destruct Hdir as [[_ ->]|[(Hne & _) ->]]; [done|].
      rewrite stat_insert by done.
      destruct (decide (designer_dir d n = bio_file d n)); [done|done]. }
    destruct Hend as [(_ & (Hne & _) & ->)|[Ht _]]; [|done].
    rewrite stat_insert by done. by rewrite decide_True.
Qed.

(** C10. [gen_info] gives the same text whatever its [link] argument, the
    [link] field of its record is the empty string, and the [info.pb] a
    successful call of [make_designer] leaves is that text, whatever
    biography and links the call was given. *)
Theorem gen_info_ignores_link (designer img_path link0 : pystr) :
  gen_info designer img_path link0 = gen_info designer img_path (py "")
  /\ pb_link (gen_info_message designer img_path link0) = Some []
  /\ (forall d n i bio urls w w',
        make_designer d n i bio urls w = (Ok tt, w') ->
        stat (fs w') (info_file d n)
        = Some (File (encode_text
                        (gen_info n (Path.basename (image_file d n)) link0)))).
Proof.
  split; [reflexivity|]. split; [reflexivity|].
  intros d n i bio urls w w' Hrun. apply make_designer_Ok_synced in Hrun.
  by destruct (synced_files _ _ _ _ _ _ _ Hrun) as [Hinfo _].
Qed.

End BioAbsent.

Lemma make_designer_bio_absent_witness :
  stat (fs (snd (make_designer (py "cat") (py "A") (py "pic.jpg") None None
                   demo_catalog))) (py "cat/a/bio.html")
  = Some (File (py "<p>By hand</p>"))
  /\ stat (fs (snd (make_designer (py "cat") (py "A") (py "pic.jpg") None None
                      demo_world))) (py "cat/a/bio.html")
     = Some (File (py "N/A")).
Proof.
  change (py "cat/a/bio.html") with (bio_file (py "cat") (py "A")).
  change (py "N/A") with (encode_text (py "N/A")).
  split.
  - apply (proj1 (make_designer_bio_absent (py "cat") (py "A") (py "pic.jpg")
                    None None demo_catalog eq_refl) (py "<p>By hand</p>")).
    reflexivity.
  - apply (proj2 (make_designer_bio_absent (py "cat") (py "A") (py "pic.jpg")
                    None None demo_world eq_refl)).
    + intros content. vm_compute. discriminate.
    + vm_compute. reflexivity.
Defined.

Lemma gen_info_ignores_link_witness :
  stat (fs (snd (make_designer (py "cat") (py "A") (py "pic.jpg")
                   (Some (py "Hello")) (Some [py "https://example.com/a"])
                   demo_world)))
       (py "cat/a/info.pb")
  = Some (File (gen_info (py "A") (py "a.png") (py "https://example.com/a"))).
Proof.
  change (py "cat/a/info.pb") with (info_file (py "cat") (py "A")).
  change (File (gen_info (py "A") (py "a.png") (py "https://example.com/a")))
    with (File (encode_text
                  (gen_info (py "A")
                     (Path.basename (image_file (py "cat") (py "A")))
                     (py "https://example.com/a")))).
  apply (proj2 (proj2 (gen_info_ignores_link (py "A") (py "a.png")
                         (py "https://example.com/a")))
           (py "cat") (py "A") (py "pic.jpg") (Some (py "Hello"))
           (Some [py "https://example.com/a"]) demo_world).
  vm_compute. reflexivity.
Defined.

(** ** [main] without a spreadsheet *)

Section MainRuns.
Context `{Unicode} `{Pillow} `{Host} `{TextFormat} `{Pandas}.

(** With a spreadsheet that can be read, both [bio] and [urls] are bound. *)
Lemma main_locals_spreadsheet (args : Namespace) (w w' : world)
    (locals : gmap string pyval) :
  truthy (spreadsheet args) = true ->
  main_locals args w = (Ok locals, w') ->
  is_Some (locals !! "bio") /\ is_Some (locals !! "urls").
Proof.
  intros Hs. unfold main_locals. rewrite Hs. intros Hrun.
  apply bind_Ok_inv in Hrun as (entry & w1 & _ & Hrun).
  destruct (truth_value (snd entry)).
  - apply bind_Ok_inv in Hrun as (urls & w2 & _ & Hrun).
    injection Hrun as <- _. split; by eexists.
  - injection Hrun as <- _. split; by eexists.
Qed.

(** C9. Without the [--spreadsheet] option [main] binds [bio] and [url] and
    never [urls]; reading [urls] for the call of [make_designer] then raises
    the unbound-variable error, with nothing printed and no file touched:
    [make_designer] is not entered. *)
Theorem main_without_spreadsheet (args : Namespace) (w : world) :
  truthy (spreadsheet args) = false ->
  exists locals : gmap string pyval,
    main_locals args w = (Ok locals, w)
    /\ locals !! "bio" = Some VNone
    /\ locals !! "url" = Some VNone
    /\ locals !! "urls" = None
    /\ main args w = (Raise (UnboundLocalError "urls"), w).
Proof.
  intros Hs. exists (<["url" := VNone]> (<["bio" := VNone]> ∅)).
  assert (main_locals args w
          = (Ok (<["url" := VNone]> (<["bio" := VNone]> ∅)), w)) as Hlocals.
  { unfold main_locals. by rewrite Hs. }
  split; [done|]. split; [done|]. split; [done|]. split; [done|].
  unfold main. erewrite bind_run by exact Hlocals.
  reflexivity.
Qed.

End MainRuns.

Lemma main_without_spreadsheet_witness :
  main {| designers_directory := py "cat"; arg_name := py "A";
          arg_img_path := py "pic.jpg"; spreadsheet := None |} demo_world
  = (Raise (UnboundLocalError "urls"), demo_world).
Proof.
  destruct (main_without_spreadsheet
              {| designers_directory := py "cat"; arg_name := py "A";
                 arg_img_path := py "pic.jpg"; spreadsheet := None |}
              demo_world eq_refl)
    as (locals & _ & _ & _ & _ & Hmain).
  exact Hmain.
Defined.

(** * Further properties of the program *)

(** ** [parse_urls] *)

Lemma with_scheme_http (t : pystr) :
  Str.startswith (with_scheme t) (py "http") = true.
Proof.
  unfold with_scheme. destruct (Str.startswith t (py "http")) eqn:E; [done|].
  reflexivity.
Qed.

Lemma parse_urls_map (s : pystr) : parse_urls s = map with_scheme (Str.split_ws s).
Proof.
  unfold parse_urls.
  rewrite (append_loop_map
             (fun url => if negb (Str.startswith url (py "http"))
                         then py "https://" ++ url else url)).
  rewrite app_nil_l. apply map_ext. intros t. unfold with_scheme.
  by destruct (Str.startswith t (py "http")).
Qed.

Lemma with_scheme_no_space (t : pystr) :
  (forall c, c ∈ t -> Str.isspace c = false) ->
  forall c, c ∈ with_scheme t -> Str.isspace c = false.
Proof.
  intros Ht c. unfold with_scheme.
  destruct (Str.startswith t (py "http")); [by apply Ht|].
  intros [Hc|Hc]%elem_of_app; [|by apply Ht].
  revert Hc. py_literals. rewrite !elem_of_cons.
  intros [->|[->|[->|[->|[->|[->|[->|[->|Hc]]]]]]]]; try reflexivity.
  by apply elem_of_nil in Hc.
Qed.

Lemma split_ws_all_space (s : pystr) :
  (forall c, c ∈ s -> Str.isspace c = true) -> Str.split_ws s = [].
Proof.
  unfold Str.split_ws. induction s as [|c s IH]; intros Hs; [done|].
  cbn [Str.split_ws_go]. rewrite (Hs c) by left.
  apply IH. intros x Hx. apply Hs. by right.
Qed.

Lemma parse_urls_wellformed_aux (s u : pystr) :
  u ∈ parse_urls s ->
  Str.startswith u (py "http") = true /\ u <> []
  /\ (forall c, c ∈ u -> Str.isspace c = false).
Proof.
  rewrite parse_urls_map. intros (t & -> & Ht)%list_elem_of_fmap.
  apply split_ws_tokens in Ht as [Hne Hsp].
  split; [apply with_scheme_http|]. split.
  - pose proof (with_scheme_http t) as Hh. intros Heq. rewrite Heq in Hh.
    discriminate.
  - by apply with_scheme_no_space.
Qed.

(** X1. Every URL [parse_urls] returns begins with [http], is not empty and
    holds no whitespace; there is one URL per token; and a string of
    whitespace only (the empty string too) gives no URL. *)
Theorem parse_urls_wellformed (s : pystr) :
  (forall u, u ∈ parse_urls s ->
     Str.startswith u (py "http") = true /\ u <> []
     /\ (forall c, c ∈ u -> Str.isspace c = false))
  /\ length (parse_urls s) = length (Str.split_ws s)
  /\ ((forall c, c ∈ s -> Str.isspace c = true) -> parse_urls s = []).
Proof.
  split; [|split].
  - intros u Hu. by apply (parse_urls_wellformed_aux s).
  - by rewrite parse_urls_map, length_map.
  - intros Hs. by rewrite parse_urls_map, split_ws_all_space.
Qed.

Lemma parse_urls_wellformed_witness :
  parse_urls (py "  ") = []
  /\ Str.startswith (py "https://foo.org") (py "http") = true.
Proof.
  split.
  - apply (parse_urls_wellformed (py "  ")).
    change (py "  ") with [32; 32]. intros c Hc.
    apply elem_of_cons in Hc as [->|Hc]; [reflexivity|].
    apply elem_of_cons in Hc as [->|Hc]; [reflexivity|].
    by apply elem_of_nil in Hc.
  - apply (parse_urls_wellformed (py "example.com foo.org")).
    vm_compute. right. left.
Defined.

Lemma split_ws_go_run (cur t rest : pystr) :
  (forall c, c ∈ t -> Str.isspace c = false) ->
  Str.split_ws_go cur (t ++ rest) = Str.split_ws_go (rev t ++ cur) rest.
Proof.
  revert cur; induction t as [|c t IH]; intros cur Ht; [done|].
  cbn [app Str.split_ws_go]. rewrite (Ht c) by left.
  rewrite IH by (intros x Hx; apply Ht; by right).
  cbn [rev]. by rewrite <- app_assoc.
Qed.

(** Splitting at whitespace undoes joining with a space, for tokens that are
    not empty and hold no whitespace. *)
Lemma split_ws_join (l : list pystr) :
  (forall t, t ∈ l -> t <> [] /\ (forall c, c ∈ t -> Str.isspace c = false)) ->
  Str.split_ws (Str.join (py " ") l) = l.
Proof.
  unfold Str.split_ws. induction l as [|t l IH]; intros Hl; [done|].
  destruct (Hl t ltac:(left)) as [Hne Hsp].
  assert (rev t <> []) as Hrev.
  { intros Hr. apply Hne. by rewrite <- (rev_involutive t), Hr. }
  destruct l as [|t2 l].
  - cbn [Str.join]. rewrite <- (app_nil_r t) at 1.
    rewrite split_ws_go_run by done.
    rewrite app_nil_r. cbn [Str.split_ws_go]. rewrite rev_involutive.
    by destruct (rev t).
  - cbn [Str.join]. rewrite split_ws_go_run by done. rewrite app_nil_r.
    change (py " ") with [32]. cbn [app Str.split_ws_go].
    change (Str.isspace 32) with true. cbn iota. rewrite rev_involutive.
    destruct (rev t); [done|]. f_equal.
    apply IH. intros x Hx. apply Hl. by right.
Qed.

Lemma with_scheme_again (t : pystr) : with_scheme (with_scheme t) = with_scheme t.
Proof.
  unfold with_scheme at 1. by rewrite with_scheme_http.
Qed.

(** X2. The URLs [parse_urls] returns, joined with spaces, parse to
    themselves: normalising a links field twice changes nothing more. *)
Theorem parse_urls_again (s : pystr) :
  parse_urls (Str.join (py " ") (parse_urls s)) = parse_urls s.
Proof.
  rewrite (parse_urls_map (Str.join _ _)). rewrite split_ws_join.
  - rewrite parse_urls_map, map_map. apply map_ext. intros t.
    apply with_scheme_again.
  - intros u Hu. destruct (parse_urls_wellformed_aux s u Hu) as (_ & Hne & Hsp).
    by split.
Qed.

(** ** From a links field to anchors *)

Lemma strip_scheme_https (t : pystr) : strip_scheme (py "https://" ++ t) = t.
Proof. reflexivity. Qed.

(** X3. What becomes of one token of a links field in the biography page.
    A token that does not begin with [http] always gives an anchor: its
    target is the token behind [https://] and its text the token up to its
    first [//], the whole token when it has none.  A token that begins with
    [http] and holds no [//] gives no anchor: the index error is raised. *)
Theorem anchor_of_token (t : pystr) :
  (Str.startswith t (py "http") = false ->
   anchor (with_scheme t)
   = Ok (py "<a href=https://" ++ t ++ py ">" ++ before_slashes t ++ py "</a>"))
  /\ (Str.startswith t (py "http") = false -> ~ has_slashes t ->
      anchor (with_scheme t)
      = Ok (py "<a href=https://" ++ t ++ py ">" ++ t ++ py "</a>"))
  /\ (Str.startswith t (py "http") = true -> ~ has_slashes t ->
      anchor (with_scheme t) = Raise IndexError).
Proof.
  assert (Str.startswith t (py "http") = false ->
          anchor (with_scheme t)
          = Ok (py "<a href=https://" ++ t ++ py ">" ++ before_slashes t
                ++ py "</a>")) as Hfirst.
  { intros Ht. unfold with_scheme. rewrite Ht. rewrite anchor_made.
    - unfold made_anchor. rewrite strip_scheme_https. f_equal.
    - exists (py "https:"), t. reflexivity. }
  split; [done|]. split.
  - intros Ht Hno. rewrite Hfirst by done. do 4 f_equal.
    rewrite partition_before_slashes.
    destruct (Str.partition t (py "//")) as [[a b]|] eqn:P; [|done].
    destruct Hno. exists a, b. by apply partition_Some.
  - intros Ht Hno. unfold with_scheme. rewrite Ht. unfold anchor.
    by rewrite split_slashes_none.
Qed.

Lemma anchor_of_token_witness :
  anchor (with_scheme (py "example.com"))
  = Ok (py "<a href=https://example.com>example.com</a>")
  /\ anchor (with_scheme (py "httpbin.org")) = Raise IndexError.
Proof.
  split.
  - refine (eq_trans (proj1 (proj2 (anchor_of_token (py "example.com"))) _ _) _).
    + reflexivity.
    + intros (a & b & Hab). apply (partition_None _ _ a b) in Hab; [done|].
      reflexivity.
    + reflexivity.
  - apply (anchor_of_token (py "httpbin.org")); [reflexivity|].
    intros (a & b & Hab). apply (partition_None _ _ a b) in Hab; [done|].
    reflexivity.
Defined.

(** ** More on [process_image] *)




(** X5. [process_image] only reads.  However it ends it changes no file;
    and a path that names a directory is refused like a path that names
    nothing, with the [ValueError] that says it is not a file, before
    anything is printed. *)
Theorem process_image_reads_only `{Pillow} (fp : pystr) (w : world) :
  fs (snd (process_image fp w)) = fs w
  /\ (stat (fs w) fp = Some Dir \/ stat (fs w) fp = None ->
      process_image fp w = (Raise (ValueError (fp ++ py " is not a file")), w)).
Proof.
  split.
  - destruct (process_image fp w) as [[img|e] w'] eqn:Hrun; cbn [snd].
    + by apply process_image_Ok_inv in Hrun as (? & ? & _ & _ & _ & ->).
    + by apply process_image_Raise_inv in Hrun as ->.
  - intros Hs. apply process_image_missing. intros content.
    destruct Hs as [-> | ->]; done.
Qed.

Lemma process_image_reads_only_witness :
  process_image (py "cat") demo_world
  = (Raise (ValueError (py "cat is not a file")), demo_world).
Proof.
  apply (proj2 (process_image_reads_only (py "cat") demo_world)).
  left. reflexivity.
Defined.

(** ** More on [make_designer] *)

Lemma fst_ret {A} (a : A) (w : world) : fst (ret a w) = Ok a.
Proof. reflexivity. Qed.

Lemma Ok_inj {A} (a b : A) : Ok a = Ok b -> a = b.
Proof. congruence. Qed.

Lemma anchor_Ok_inv (u a : pystr) :
  anchor u = Ok a -> has_slashes u /\ a = made_anchor u.
Proof.
  intros Ha.
  assert (has_slashes u) as Hu.
  { unfold anchor in Ha. rewrite split_unfold in Ha by done.
    destruct (Str.partition u (py "//")) as [[x y]|] eqn:P; [|done].
    exists x, y. by apply partition_Some. }
  split; [done|]. rewrite anchor_made in Ha by done. by injection Ha.
Qed.

Lemma anchor_cases (u : pystr) :
  anchor u = Ok (made_anchor u) /\ has_slashes u
  \/ anchor u = Raise IndexError /\ ~ has_slashes u.
Proof.
  destruct (anchor u) as [a|e] eqn:Ha.
  - apply anchor_Ok_inv in Ha as [Hu ->]. by left.
  - right. unfold anchor in Ha.
    destruct (Str.split u (py "//") !! 1%nat) eqn:E; [done|].
    injection Ha as <-. split; [done|]. intros Hu.
    by rewrite split_slashes_second in E.
Qed.

Lemma anchors_Ok_inv (urls l : list pystr) :
  anchors urls = Ok l ->
  (forall u, u ∈ urls -> has_slashes u) /\ l = map made_anchor urls.
Proof.
  revert l; induction urls as [|u urls IH]; intros l; cbn [anchors map].
  - intros [= <-]. split; [|done]. by intros ? ?%elem_of_nil.
  - destruct (anchor_cases u) as [[-> Hu]|[-> _]]; [|done].
    destruct (anchors urls) as [l'|e]; [|done]. intros [= <-].
    destruct (IH l' eq_refl) as [Hall ->]. split; [|done].
    intros v [->|Hv]%elem_of_cons; [done|by apply Hall].
Qed.

Lemma anchors_bad (urls : list pystr) (u : pystr) :
  u ∈ urls -> ~ has_slashes u -> anchors urls = Raise IndexError.
Proof.
  induction urls as [|v urls IH]; [by intros ?%elem_of_nil|].
  intros Hin Hu. cbn [anchors].
  destruct (anchor_cases v) as [[-> Hv]|[-> _]]; [|done].
  apply elem_of_cons in Hin as [->|Hin]; [done|]. by rewrite IH.
Qed.

Section MoreRuns.
Context `{Unicode} `{Pillow} `{Host} `{TextFormat}.

(** The run up to the biography block: the directory is there or is made,
    the image is read, the avatar and [info.pb] are written. *)
Lemma make_designer_record (d n i : pystr) (bio : option pystr)
    (urls : option (list pystr)) (w : world) (m1 : gmap pystr node)
    (content : list N) (img0 : image) :
  let m2 := <[image_file d n :=
                File (encode_png (Pil.thumbnail (300, 300)%Z img0))]> m1 in
  let m3 := <[info_file d n := File (encode_text (info_text d n))]> m2 in
  (stat (fs w) (designer_dir d n) = Some Dir /\ m1 = fs w
   \/ creatable (fs w) (designer_dir d n)
      /\ m1 = <[designer_dir d n := Dir]> (fs w)) ->
  stat m1 i = Some (File content) -> decode content = Some img0 ->
  writable m1 (image_file d n) ->
  writable m2 (info_file d n) ->
  exists w4,
    fs w4 = m3
    /\ make_designer d n i bio urls w
       = (html_text <- bio_html (bio_file d n) bio urls ;;
          if truthy html_text
          then write_text (bio_file d n) (default [] html_text)
          else ret tt)%py w4.
Proof.
  intros m2 m3 Hdir Hs Hd Hav Hin. rewrite make_designer_unfold.
  assert (exists w1, bind (isdir (designer_dir d n))
            (fun is_dir =>
               if negb is_dir
               then bind (print (n ++ py " isn't in catalog. Creating new dir "
                                   ++ designer_dir d n))
                         (fun _ => mkdir (designer_dir d n))
               else ret tt) w = (Ok tt, w1) /\ fs w1 = m1) as (w1 & Hw1 & Hm1).
  { run. destruct Hdir as [[Hdd ->]|[Hc ->]].
    - rewrite Hdd. run. by eexists.
    - destruct Hc as (Hne & Hnone & Hpar). rewrite Hnone. run.
      rewrite mkdir_ok by done. by eexists. }
  subst m1. rewrite <- bind_assoc. erewrite bind_run by exact Hw1. run.
  erewrite bind_run by (by apply (process_image_ok i content img0)).
  unfold Pil.save. erewrite bind_run by (by apply write_bytes_ok). run.
  unfold write_text at 1. erewrite bind_run by (by apply write_bytes_ok).
  eexists. split; [|reflexivity]. done.
Qed.

(** X6. A link without [//] stops a call half way.  When the call with the
    biography and no links succeeds, the same call with links of which one
    holds no [//] raises the index error after the avatar and [info.pb]
    have been written: the files are those of the successful call except
    for [bio.html], which is as it was before the call. *)
Theorem make_designer_bad_link (d n i bio : pystr) (urls : list pystr)
    (u : pystr) (w w0 : world) :
  bio <> [] -> u ∈ urls -> ~ has_slashes u ->
  make_designer d n i (Some bio) None w = (Ok tt, w0) ->
  exists w',
    make_designer d n i (Some bio) (Some urls) w = (Raise IndexError, w')
    /\ stat (fs w') (info_file d n) = Some (File (encode_text (info_text d n)))
    /\ stat (fs w') (bio_file d n) = stat (fs w) (bio_file d n)
    /\ fs w0 = <[bio_file d n :=
                   File (encode_text (py "<p>" ++ bio ++ py "</p>"))]> (fs w').
Proof.
  intros Hbio Hin Hu Hrun0. apply make_designer_Ok_synced in Hrun0.
  destruct Hrun0
    as (m1 & content & img0 & html & Hdir & Hs & Hd & Hav & Hinf & Hres & Hend).
  cbv zeta in *.
  destruct (make_designer_record d n i (Some bio) (Some urls) w m1 content img0
              Hdir Hs Hd Hav Hinf) as (w4 & Hw4 & ->).
  destruct bio as [|c bio]; [done|].
  assert (html = Some (py "<p>" ++ (c :: bio) ++ py "</p>")) as ->.
  { specialize (Hres w4 Hw4). revert Hres. unfold bio_html. run.
    rewrite fst_ret. congruence. }
  destruct Hend as [(_ & Hbw & Hw0)|[Ht _]]; [|done].
  destruct urls as [|v urls]; [by apply elem_of_nil in Hin|].
  unfold bio_html. run.
  rewrite (anchors_bad (v :: urls) u Hin Hu). run.
  eexists. split; [reflexivity|]. cbn [fs]. rewrite Hw4.
  pose proof (image_file_not_bio d n) as Hab.
  pose proof (info_file_not_bio d n) as Hib.
  split; [|split; [|exact Hw0]].
  - rewrite stat_insert by apply Hinf. by rewrite decide_True.
  - rewrite !stat_insert by (apply Hinf || apply Hav).
    rewrite !decide_False by done.
    destruct Hdir as [[_ ->]|[(Hne & _) ->]]; [done|].
    rewrite stat_insert by done.
    destruct (decide (designer_dir d n = bio_file d n)) as [Heq|]; [|done].
    destruct Hbw as (_ & Hnd & _). destruct Hnd.
    apply dir_after_write; [done|]. apply dir_after_write; [done|].
    rewrite <- Heq, stat_insert by done. by rewrite decide_True.
Qed.

(** X7. A biography given replaces the page.  After a successful call with a
    biography, [bio.html] holds the page made from it, whatever it held
    before: the biography paragraph alone when no links are given, and with
    links the paragraph of anchors as well; and a call with links succeeds
    only when every link holds [//]. *)
Theorem make_designer_bio_given (d n i bio : pystr)
    (urls : option (list pystr)) (w w' : world) :
  bio <> [] ->
  make_designer d n i (Some bio) urls w = (Ok tt, w') ->
  (truthy urls = false ->
   stat (fs w') (bio_file d n)
   = Some (File (encode_text (py "<p>" ++ bio ++ py "</p>"))))
  /\ (forall l, urls = Some l -> l <> [] ->
        (forall v, v ∈ l -> has_slashes v)
        /\ stat (fs w') (bio_file d n)
           = Some (File (encode_text (bio_page bio (map made_anchor l))))).
Proof.
  intros Hbio Hrun. apply make_designer_Ok_synced in Hrun.
  destruct Hrun
    as (m1 & content & img0 & html & Hdir & Hs & Hd & Hav & Hinf & Hres & Hend).
  cbv zeta in *. destruct bio as [|c bio]; [done|].
  set (m3 := <[info_file d n := _]> (<[image_file d n := _]> m1)) in *.
  specialize (Hres {| fs := m3; stdout := [] |} eq_refl).
  assert (forall page, html = Some page -> page <> [] ->
            stat (fs w') (bio_file d n) = Some (File (encode_text page)))
    as Hpage.
  { intros page -> Hne.
    destruct Hend as [(_ & (Hb0 & _) & ->)|[Ht _]].
    - rewrite stat_insert by done. by rewrite decide_True.
    - by destruct page. }
  split.
  - intros Hurls. apply Hpage; [|done].
    revert Hres. unfold bio_html. run.
    destruct urls as [[|v l]|]; [|done|]; run; rewrite fst_ret; congruence.
  - intros l -> Hl. destruct l as [|v l]; [done|].
    revert Hres. unfold bio_html. run.
    destruct (anchors (v :: l)) as [la|e] eqn:Ha; run; [|done].
    rewrite fst_ret.
    apply anchors_Ok_inv in Ha as [Hall ->]. intros Hres.
    apply Ok_inj in Hres. split; [done|].
    rewrite (Hpage _ (eq_sym Hres)) by done.
    do 3 f_equal. unfold bio_page. by py_norm.
Qed.

End MoreRuns.

Lemma make_designer_bad_link_witness :
  exists w',
    make_designer (py "cat") (py "A") (py "pic.jpg") (Some (py "Hello"))
      (Some [py "httpbin.org"]) demo_world
    = (Raise IndexError, w')
    /\ stat (fs w') (py "cat/a/bio.html") = None
    /\ is_Some (stat (fs w') (py "cat/a/info.pb")).
Proof.
  destruct (make_designer_bad_link (py "cat") (py "A") (py "pic.jpg")
              (py "Hello") [py "httpbin.org"] (py "httpbin.org") demo_world
              (snd (make_designer (py "cat") (py "A") (py "pic.jpg")
                      (Some (py "Hello")) None demo_world)))
    as (w' & Hrun & Hinfo & Hbio & _).
  - done.
  - left.
  - intros (a & b & Hab). apply (partition_None _ _ a b) in Hab; [done|].
    reflexivity.
  - vm_compute. reflexivity.
  - exists w'. split; [exact Hrun|]. split.
    + exact Hbio.
    + eexists. exact Hinfo.
Defined.

Lemma make_designer_bio_given_witness :
  stat (fs (snd (make_designer (py "cat") (py "A") (py "pic.jpg")
                   (Some (py "Hello")) None demo_catalog)))
       (bio_file (py "cat") (py "A"))
  = Some (File (encode_text (py "<p>" ++ py "Hello" ++ py "</p>"))).
Proof.
  apply (proj1 (make_designer_bio_given (py "cat") (py "A") (py "pic.jpg")
                  (py "Hello") None demo_catalog _ ltac:(done)
                  ltac:(vm_compute; reflexivity))).
  reflexivity.
Defined.

Lemma process_image_reads_only_fs `{Pillow} (fp : pystr) (w : world) :
  fs (snd (process_image fp w)) = fs w.
Proof.
  destruct (process_image fp w) as [[img|e] w'] eqn:Hrun; cbn [snd].
  - by apply process_image_Ok_inv in Hrun as (? & ? & _ & _ & _ & ->).
  - by apply process_image_Raise_inv in Hrun as ->.
Qed.

(** ** What [make_designer] touches, however it ends *)

Section Touches.
Context `{Unicode} `{Pillow} `{Host} `{TextFormat}.

(** A property of the files alone that creating the designer's directory and
    writing each of the three files keep is kept by the whole call. *)
Lemma make_designer_keeps (P : world -> Prop) (d n i : pystr)
    (bio : option pystr) (urls : option (list pystr)) :
  (forall w1 w2, fs w1 = fs w2 -> P w1 -> P w2) ->
  keeps P (mkdir (designer_dir d n)) ->
  (forall data, keeps P (write_bytes (image_file d n) data)) ->
  (forall data, keeps P (write_bytes (info_file d n) data)) ->
  (forall data, keeps P (write_bytes (bio_file d n) data)) ->
  keeps P (make_designer d n i bio urls).
Proof.
  intros Hfs Hmk Hav Hin Hbf.
  assert (forall s, keeps P (print s)) as Hprint.
  { intros s w Hw. by apply (Hfs w). }
  rewrite make_designer_unfold.
  apply keeps_bind; [by intros w Hw|intros is_dir].
  apply keeps_bind.
  { apply keeps_if; [|apply keeps_ret].
    apply keeps_bind; [apply Hprint|by intros _]. }
  intros _. apply keeps_bind; [apply Hprint|intros _].
  apply keeps_bind.
  { intros w Hw. apply (Hfs w); [|done]. symmetry.
    apply process_image_reads_only_fs. }
  intros img. apply keeps_bind; [apply Hav|intros _].
  apply keeps_bind; [apply Hprint|intros _].
  apply keeps_bind; [apply Hin|intros _].
  apply keeps_bind.
  { intros w Hw. apply (Hfs w); [|done]. symmetry. apply bio_html_fs. }
  intros html. apply keeps_if; [apply Hbf|apply keeps_ret].
Qed.

(** X8. However a call of [make_designer] ends, it has touched nothing but
    the designer's directory and the three files of the record: every other
    path names what it named before; a directory is still a directory and
    a file is still a file, so nothing is ever removed. *)
Theorem make_designer_touches_only (d n i : pystr) (bio : option pystr)
    (urls : option (list pystr)) (w : world) (p : pystr) :
  (p <> designer_dir d n -> p <> image_file d n -> p <> info_file d n ->
   p <> bio_file d n ->
   fs (snd (make_designer d n i bio urls w)) !! p = fs w !! p)
  /\ (stat (fs w) p = Some Dir ->
      stat (fs (snd (make_designer d n i bio urls w))) p = Some Dir)
  /\ (forall content,
        stat (fs w) p = Some (File content) ->
        exists content',
          stat (fs (snd (make_designer d n i bio urls w))) p
          = Some (File content')).
Proof.
  split; [|split].
  - intros Hdd Hav Hin Hbf.
    apply (make_designer_keeps (fun w1 => fs w1 !! p = fs w !! p));
      [by intros w1 w2 ->| | | | |done].
    + intros w1 Hw1. destruct (creatable_dec (fs w1) (designer_dir d n)) as [Hc|Hc].
      * rewrite mkdir_ok by done. cbn [snd with_node fs].
        by rewrite lookup_insert_ne.
      * by destruct (mkdir_fail w1 _ Hc) as [e ->].
    + intros data w1 Hw1.
      destruct (writable_dec (fs w1) (image_file d n)) as [Hc|Hc].
      * rewrite write_bytes_ok by done. cbn [snd with_node fs].
        by rewrite lookup_insert_ne.
      * by destruct (write_bytes_fail w1 _ data Hc) as [e ->].
    + intros data w1 Hw1.
      destruct (writable_dec (fs w1) (info_file d n)) as [Hc|Hc].
      * rewrite write_bytes_ok by done. cbn [snd with_node fs].
        by rewrite lookup_insert_ne.
      * by destruct (write_bytes_fail w1 _ data Hc) as [e ->].
    + intros data w1 Hw1.
      destruct (writable_dec (fs w1) (bio_file d n)) as [Hc|Hc].
      * rewrite write_bytes_ok by done. cbn [snd with_node fs].
        by rewrite lookup_insert_ne.
      * by destruct (write_bytes_fail w1 _ data Hc) as [e ->].
  - intros Hdir.
    assert (forall q data,
              keeps (fun w1 => stat (fs w1) p = Some Dir) (write_bytes q data))
      as Hwrite.
    { intros q data w1 Hw1. destruct (writable_dec (fs w1) q) as [Hc|Hc].
      - rewrite write_bytes_ok by done. cbn [snd with_node fs].
        by apply dir_after_write.
      - by destruct (write_bytes_fail w1 _ data Hc) as [e ->]. }
    apply (make_designer_keeps (fun w1 => stat (fs w1) p = Some Dir));
      [by intros w1 w2 ->| |by intros; apply Hwrite..|done].
    intros w1 Hw1. destruct (creatable_dec (fs w1) (designer_dir d n)) as [Hc|Hc].
    + rewrite mkdir_ok by done. cbn [snd with_node fs].
      destruct Hc as (Hne & Hnone & _). rewrite stat_insert by done.
      destruct (decide (designer_dir d n = p)); [done|done].
    + by destruct (mkdir_fail w1 _ Hc) as [e ->].
  - intros content Hfile.
    assert (forall q data,
              keeps (fun w1 => exists c, stat (fs w1) p = Some (File c))
                    (write_bytes q data)) as Hwrite.
    { intros q data w1 Hw1. destruct (writable_dec (fs w1) q) as [Hc|Hc].
      - rewrite write_bytes_ok by done. cbn [snd with_node fs].
        rewrite stat_insert by apply Hc.
        destruct (decide (q = p)); [by eexists|done].
      - by destruct (write_bytes_fail w1 _ data Hc) as [e ->]. }
    apply (make_designer_keeps (fun w1 => exists c, stat (fs w1) p = Some (File c)));
      [by intros w1 w2 ->| |by intros; apply Hwrite..|by eexists].
    intros w1 [c Hw1]. destruct (creatable_dec (fs w1) (designer_dir d n)) as [Hc|Hc].
    + rewrite mkdir_ok by done. cbn [snd with_node fs].
      destruct Hc as (Hne & Hnone & _). rewrite stat_insert by done.
      destruct (decide (designer_dir d n = p)) as [Heq|]; [|by eexists].
      rewrite Heq in Hnone. congruence.
    + destruct (mkdir_fail w1 _ Hc) as [e ->]. by eexists.
Qed.

End Touches.

Lemma make_designer_touches_only_witness :
  fs (snd (make_designer (py "cat") (py "A") (py "pic.jpg") None None
             demo_world)) !! py "pic.jpg"
  = Some (File [400; 200; 7; 7])
  /\ stat (fs (snd (make_designer (py "cat") (py "A") (py "nope.png") None None
                      demo_world))) (py "cat")
     = Some Dir.
Proof.
  split.
  - refine (eq_trans
              (proj1 (make_designer_touches_only (py "cat") (py "A")
                        (py "pic.jpg") None None demo_world (py "pic.jpg"))
                 _ _ _ _) _);
      [vm_compute; discriminate..|reflexivity].
  - apply (make_designer_touches_only (py "cat") (py "A") (py "nope.png")
             None None demo_world (py "cat")).
    reflexivity.
Defined.

(** ** Paths *)

Lemma rfind_go_app (a b : pystr) (i last_hit : Z) :
  Path.rfind_go (a ++ b) i last_hit
  = Path.rfind_go b (i + Z.of_nat (length a))%Z (Path.rfind_go a i last_hit).
Proof.
  revert i last_hit; induction a as [|c a IH]; intros i last_hit.
  - cbn [app length Path.rfind_go]. by rewrite Z.add_0_r.
  - cbn [app length Path.rfind_go]. rewrite IH. f_equal. lia.
Qed.

Lemma rfind_go_none (b : pystr) (i last_hit : Z) :
  Path.sep ∉ b -> Path.rfind_go b i last_hit = last_hit.
Proof.
  revert i last_hit; induction b as [|c b IH]; intros i last_hit Hb; [done|].
  cbn [Path.rfind_go]. rewrite IH by (intros Hin; apply Hb; by right).
  destruct (c =? Path.sep) eqn:E; [|done].
  apply N.eqb_eq in E as ->. destruct Hb. left.
Qed.

Lemma rfind_sep_last (a b : pystr) :
  Path.sep ∉ b ->
  Path.rfind_sep (a ++ [Path.sep] ++ b) = Z.of_nat (length a).
Proof.
  intros Hb. unfold Path.rfind_sep. rewrite rfind_go_app.
  cbn [app Path.rfind_go]. rewrite N.eqb_refl. by rewrite rfind_go_none.
Qed.

Lemma basename_after_sep (a b : pystr) :
  Path.sep ∉ b -> Path.basename (a ++ [Path.sep] ++ b) = b.
Proof.
  intros Hb. unfold Path.basename. rewrite rfind_sep_last by done.
  replace (Z.to_nat (Z.of_nat (length a) + 1)) with (length (a ++ [Path.sep]))
    by (rewrite length_app; simpl; lia).
  by rewrite app_assoc, drop_app_length.
Qed.

Lemma basename_plain (b : pystr) : Path.sep ∉ b -> Path.basename b = b.
Proof.
  intros Hb. unfold Path.basename, Path.rfind_sep.
  by rewrite rfind_go_none.
Qed.

Lemma startswith_sep_false (b : pystr) :
  Path.sep ∉ b -> Str.startswith b [Path.sep] = false.
Proof.
  intros Hb. destruct b as [|c b]; [done|]. cbn [Str.startswith].
  rewrite andb_true_r. apply N.eqb_neq. intros <-. destruct Hb. left.
Qed.

(** [os.path.join] written out, for a second part that is no absolute path. *)
Lemma join_cases (a b : pystr) :
  Str.startswith b [Path.sep] = false ->
  (a = [] /\ Path.join a b = b)
  \/ (exists a', a = a' ++ [Path.sep] /\ Path.join a b = a' ++ [Path.sep] ++ b)
  \/ (a <> [] /\ last a <> Some Path.sep
      /\ Path.join a b = a ++ [Path.sep] ++ b).
Proof.
  intros Hb. unfold Path.join. rewrite Hb. destruct a as [|c a]; [by left|].
  right. unfold Path.ends_with_sep.
  destruct (last (c :: a)) as [x|] eqn:Hl.
  - destruct (N.eqb_spec x Path.sep) as [->|Hx].
    + left. apply last_Some in Hl as [a' ->]. exists a'.
      by rewrite <- app_assoc.
    + right. split; [done|]. split; [congruence|done].
  - right. split; [done|]. split; [done|done].
Qed.

Lemma basename_join (a b : pystr) :
  Path.sep ∉ b -> Path.basename (Path.join a b) = b.
Proof.
  intros Hb.
  destruct (join_cases a b (startswith_sep_false b Hb))
    as [[_ ->]|[(a' & _ & ->)|(_ & _ & ->)]].
  - by apply basename_plain.
  - by apply basename_after_sep.
  - by apply basename_after_sep.
Qed.

(** X9. The file name recorded in [info.pb] is the directory key followed by
    [.png] whenever the key holds no slash; the text of [info.pb] then
    depends on the name alone, not on where the catalog is. *)
Theorem info_text_file_name `{Unicode} `{TextFormat} (d n : pystr) :
  Path.sep ∉ designer_dir_name n ->
  Path.basename (image_file d n) = designer_dir_name n ++ py ".png"
  /\ info_text d n = gen_info n (designer_dir_name n ++ py ".png") (py "")
  /\ forall d', info_text d' n = info_text d n.
Proof.
  intros Hkey.
  assert (forall d0, Path.basename (image_file d0 n)
                     = designer_dir_name n ++ py ".png") as Hbase.
  { intros d0. unfold image_file. apply basename_join.
    intros [Hin|Hin]%elem_of_app; [done|].
    vm_compute in Hin. repeat (apply elem_of_cons in Hin as [Hin|Hin]; [done|]).
    by apply elem_of_nil in Hin. }
  split; [apply Hbase|]. unfold info_text. split.
  - by rewrite Hbase.
  - intros d'. by rewrite !Hbase.
Qed.

Lemma info_text_file_name_witness :
  Path.basename (image_file (py "cat") (py "Theo Salvadore"))
  = py "theosalvadore.png"
  /\ Path.basename (image_file (py "cat") (py "AC/DC")) = py "dc.png".
Proof.
  split; [|reflexivity].
  refine (eq_trans
            (proj1 (info_text_file_name (py "cat") (py "Theo Salvadore") _)) _).
  - vm_compute. intros Hin.
    repeat (apply elem_of_cons in Hin as [Hin|Hin]; [done|]).
    by apply elem_of_nil in Hin.
  - reflexivity.
Defined.

Lemma rstrip_sep_snoc (a : pystr) :
  a <> [] -> last a <> Some Path.sep -> Path.rstrip_sep (a ++ [Path.sep]) = a.
Proof.
  intros Ha Hl. unfold Path.rstrip_sep. rewrite rev_app_distr.
  cbn [rev app Path.lstrip_sep]. rewrite N.eqb_refl.
  destruct (last a) as [x|] eqn:E; [|by apply last_None in E].
  apply last_Some in E as [a' ->]. rewrite rev_app_distr.
  cbn [rev app Path.lstrip_sep].
  destruct (N.eqb_spec x Path.sep) as [->|_]; [by destruct Hl|].
  change (x :: rev a') with (rev [x] ++ rev a').
  by rewrite <- rev_app_distr, rev_involutive.
Qed.

Lemma dirname_after_sep (a b : pystr) :
  a <> [] -> last a <> Some Path.sep -> Path.sep ∉ b ->
  Path.dirname (a ++ [Path.sep] ++ b) = a.
Proof.
  intros Ha Hl Hb. unfold Path.dirname. rewrite rfind_sep_last by done.
  replace (Z.to_nat (Z.of_nat (length a) + 1)) with (length (a ++ [Path.sep]))
    by (rewrite length_app; simpl; lia).
  rewrite app_assoc, take_app_length.
  destruct (a ++ [Path.sep]) as [|c r] eqn:E; [by destruct a|]. rewrite <- E.
  replace (forallb (N.eqb Path.sep) (a ++ [Path.sep])) with false.
  - by apply rstrip_sep_snoc.
  - symmetry. rewrite forallb_app. apply andb_false_iff. left.
    destruct (last a) as [x|] eqn:El; [|by apply last_None in El].
    apply last_Some in El as [a' ->]. rewrite forallb_app.
    apply andb_false_iff. right. cbn [forallb]. rewrite andb_true_r.
    apply N.eqb_neq. intros <-. by destruct Hl.
Qed.

Lemma join_plain (a b : pystr) :
  a <> [] -> last a <> Some Path.sep -> Str.startswith b [Path.sep] = false ->
  Path.join a b = a ++ [Path.sep] ++ b.
Proof.
  intros Ha Hl Hb.
  destruct (join_cases a b Hb) as [[-> _]|[(a' & -> & _)|(_ & _ & ->)]];
    [done| |done].
  destruct Hl. by rewrite last_snoc.
Qed.

Lemma last_no_sep (a b : pystr) :
  b <> [] -> Path.sep ∉ b -> last (a ++ b) <> Some Path.sep.
Proof.
  intros Hb Hn. rewrite last_app.
  destruct (last b) as [x|] eqn:E; [|by apply last_None in E].
  intros [= ->]. apply Hn. apply last_Some in E as [b' ->].
  apply elem_of_app. right. left.
Qed.

Lemma png_no_sep (key : pystr) : Path.sep ∉ key -> Path.sep ∉ key ++ py ".png".
Proof.
  intros Hkey [Hin|Hin]%elem_of_app; [done|].
  vm_compute in Hin. repeat (apply elem_of_cons in Hin as [Hin|Hin]; [done|]).
  by apply elem_of_nil in Hin.
Qed.

Lemma literal_no_sep (s : pystr) :
  forallb (fun c => negb (c =? Path.sep)) s = true -> Path.sep ∉ s.
Proof.
  intros Hs Hin. rewrite forallb_forall in Hs.
  apply list_elem_of_In, Hs in Hin. by rewrite N.eqb_refl in Hin.
Qed.

Section NewDesigner.
Context `{Unicode} `{Pillow} `{Host} `{TextFormat}.

(** Where the record of a designer is, for a catalog path without a trailing
    slash and a key that is not empty and holds no slash. *)
Lemma record_paths (d n : pystr) :
  d <> [] -> last d <> Some Path.sep ->
  designer_dir_name n <> [] -> Path.sep ∉ designer_dir_name n ->
  let key := designer_dir_name n in
  let dd := d ++ [Path.sep] ++ key in
  designer_dir d n = dd
  /\ image_file d n = dd ++ [Path.sep] ++ key ++ py ".png"
  /\ info_file d n = dd ++ [Path.sep] ++ py "info.pb"
  /\ bio_file d n = dd ++ [Path.sep] ++ py "bio.html"
  /\ dd <> [] /\ last dd <> Some Path.sep.
Proof.
  intros Hd Hl Hkey Hsep key dd.
  assert (designer_dir d n = dd) as Hdd.
  { unfold designer_dir. apply join_plain; [done|done|].
    by apply startswith_sep_false. }
  assert (dd <> []) as Hne by (subst dd; by destruct d).
  assert (last dd <> Some Path.sep) as Hlast.
  { subst dd. rewrite app_assoc. by apply last_no_sep. }
  unfold image_file, info_file, bio_file. rewrite Hdd.
  split; [done|]. split; [|split; [|split; [|done]]].
  - apply join_plain; [done|done|].
    apply startswith_sep_false. by apply png_no_sep.
  - by apply join_plain.
  - by apply join_plain.
Qed.

Lemma bio_text_nonempty (bio : option pystr) (urls : option (list pystr)) :
  truthy (Some (bio_text bio urls)) = true.
Proof.
  unfold bio_text. destruct bio as [[|c b]|]; [done| |done].
  by destruct urls as [[|u l]|].
Qed.

Lemma bio_html_text (biof : pystr) (bio : option pystr)
    (urls : option (list pystr)) (w : world) :
  links_ok bio urls -> stat (fs w) biof = None ->
  fst (bio_html biof bio urls w) = Ok (Some (bio_text bio urls)).
Proof.
  intros Hlinks Hnone. destruct (truthy bio) eqn:Hb.
  - destruct bio as [[|c b]|]; [done| |done].
    unfold bio_html, bio_text. run.
    destruct urls as [[|u l]|]; [done| |done]. run.
    rewrite anchors_made by (intros v Hv; by apply (Hlinks eq_refl (u :: l))).
    run. rewrite fst_ret. do 2 f_equal. unfold bio_page. by py_norm.
  - rewrite bio_html_absent_missing; [|done|by rewrite Hnone].
    by destruct bio as [[|c b]|].
Qed.

Lemma make_designer_Ok_links (d n i : pystr) (bio : option pystr)
    (urls : option (list pystr)) (w w' : world) :
  make_designer d n i bio urls w = (Ok tt, w') -> links_ok bio urls.
Proof.
  intros Hrun. apply make_designer_Ok_synced in Hrun.
  destruct Hrun
    as (m1 & content & img0 & html & _ & _ & _ & _ & _ & Hres & _).
  cbv zeta in *.
  set (m3 := <[info_file d n := _]> (<[image_file d n := _]> m1)) in *.
  specialize (Hres {| fs := m3; stdout := [] |} eq_refl).
  intros Hb l u -> Hin. destruct bio as [[|c b]|]; [done| |done].
  destruct l as [|v l]; [by apply elem_of_nil in Hin|].
  revert Hres. unfold bio_html. run.
  destruct (anchors (v :: l)) as [la|e] eqn:Ha; run; [|done].
  intros _. apply anchors_Ok_inv in Ha as [Hall _]. by apply Hall.
Qed.

(** X10. A new designer.  For a catalog path that does not end in a slash,
    a key that is not empty and holds no slash, no entry yet at the
    designer's directory and at its [bio.html], and an image file that the
    imaging library reads: when [make_designer] returns normally, the files
    are the old ones and, new, the directory [catalog/key] with the avatar
    [key.png] holding the thumbnail, [info.pb] holding the record and
    [bio.html] holding the page; nothing else has changed, and the links,
    when they are shown, all hold [//]. *)
Theorem make_designer_new (d n i : pystr) (bio : option pystr)
    (urls : option (list pystr)) (w w' : world) (content : list N)
    (img0 : image) :
  d <> [] -> last d <> Some Path.sep ->
  designer_dir_name n <> [] -> Path.sep ∉ designer_dir_name n ->
  stat (fs w) (designer_dir d n) = None ->
  stat (fs w) (bio_file d n) = None ->
  stat (fs w) i = Some (File content) -> decode content = Some img0 ->
  make_designer d n i bio urls w = (Ok tt, w') ->
  designer_dir d n = d ++ [Path.sep] ++ designer_dir_name n
  /\ image_file d n
     = designer_dir d n ++ [Path.sep] ++ designer_dir_name n ++ py ".png"
  /\ links_ok bio urls
  /\ stat (fs w) d = Some Dir
  /\ fs w'
     = <[bio_file d n := File (encode_text (bio_text bio urls))]>
         (<[info_file d n :=
              File (encode_text
                      (gen_info n (designer_dir_name n ++ py ".png") (py "")))]>
            (<[image_file d n :=
                 File (encode_png (Pil.thumbnail (300, 300)%Z img0))]>
               (<[designer_dir d n := Dir]> (fs w)))).
Proof.
  intros Hd Hl Hkey Hsep Hdd Hbf Hi Hdec Hrun.
  pose proof (make_designer_Ok_links _ _ _ _ _ _ _ Hrun) as Hlinks.
  destruct (record_paths d n Hd Hl Hkey Hsep)
    as (Edd & Eav & Ein & Ebf & Hne & Hlast).
  cbv zeta in *.
  assert (Path.dirname (designer_dir d n) = d) as Hpd.
  { rewrite Edd. by apply dirname_after_sep. }
  assert (designer_dir d n <> []) as Hdne by (by rewrite Edd).
  assert (designer_dir d n <> bio_file d n) as Nbf.
  { rewrite Ebf, Edd. intros Heq. apply (f_equal length) in Heq.
    rewrite !length_app in Heq. simpl in Heq. lia. }
  pose proof (image_file_not_bio d n) as Nab.
  pose proof (info_file_not_bio d n) as Nib.
  assert (info_text d n
          = gen_info n (designer_dir_name n ++ py ".png") (py "")) as Htxt.
  { unfold info_text. f_equal. unfold image_file. apply basename_join.
    by apply png_no_sep. }
  rewrite <- Htxt.
  apply make_designer_Ok_synced in Hrun.
  destruct Hrun
    as (m1 & content' & img' & html & Hdir & Hs & Hd' & Hav & Hinf & Hres & Hend).
  cbv zeta in *.
  destruct Hdir as [[Hyes _]|[Hc ->]]; [congruence|].
  assert (content' = content /\ img' = img0) as [-> ->].
  { rewrite stat_insert in Hs by done.
    destruct (decide (designer_dir d n = i)) as [Heq|]; [done|].
    rewrite Hi in Hs. assert (content' = content) as -> by congruence.
    split; [done|]. congruence. }
  set (m1 := <[designer_dir d n := Dir]> (fs w)) in *.
  set (m2 := <[image_file d n :=
                 File (encode_png (Pil.thumbnail (300, 300)%Z img0))]> m1) in *.
  set (m3 := <[info_file d n := File (encode_text (info_text d n))]> m2) in *.
  assert (stat m3 (bio_file d n) = None) as Sbf.
  { subst m3 m2 m1. rewrite !stat_insert by (done || apply Hinf || apply Hav).
    by rewrite !decide_False by done. }
  assert (html = Some (bio_text bio urls)) as ->.
  { specialize (Hres {| fs := m3; stdout := [] |} eq_refl).
    rewrite bio_html_text in Hres by done. congruence. }
  split; [done|]. split; [by rewrite Eav, Edd|]. split; [done|]. split.
  - destruct Hc as (_ & _ & [Hnil|Hpar]); rewrite Hpd in *; [done|done].
  - destruct Hend as [(_ & _ & ->)|[Ht _]]; [done|].
    by rewrite bio_text_nonempty in Ht.
Qed.

End NewDesigner.

Lemma make_designer_new_witness :
  image_file (py "cat") (py "A") = py "cat/a/a.png"
  /\ fs (snd (make_designer (py "cat") (py "A") (py "pic.jpg") None None
                demo_world))
     = <[py "cat/a/bio.html" := File (py "N/A")]>
         (<[py "cat/a/info.pb" :=
              File (gen_info (py "A") (py "a.png") (py ""))]>
            (<[py "cat/a/a.png" := File [300; 150; 7; 7]]>
               (<[py "cat/a" := Dir]> (fs demo_world)))).
Proof.
  destruct (make_designer_new (py "cat") (py "A") (py "pic.jpg") None None
              demo_world
              (snd (make_designer (py "cat") (py "A") (py "pic.jpg") None None
                      demo_world))
              [400; 200; 7; 7]
              {| im_width := 400; im_height := 200; im_data := [7; 7] |})
    as (_ & Hav & _ & _ & Hfs).
  - done.
  - vm_compute. discriminate.
  - vm_compute. discriminate.
  - apply literal_no_sep. reflexivity.
  - reflexivity.
  - reflexivity.
  - reflexivity.
  - reflexivity.
  - reflexivity.
  - split; [rewrite Hav; reflexivity|]. rewrite Hfs. reflexivity.
Defined.

(** ** Names that give an empty key, and a directory that cannot be made *)

Section Edges.
Context `{Unicode} `{Pillow} `{Host} `{TextFormat}.

(** X11. A name whose lower-cased form holds only spaces and hyphens (the
    empty name too) has the empty key: the record's files are then named
    directly under the catalog path, the avatar just [.png]. *)
Theorem designer_dir_name_blank (d n : pystr) :
  (forall c, c ∈ str_lower n -> c = 32 \/ c = 45) ->
  designer_dir_name n = []
  /\ (d <> [] -> last d <> Some Path.sep ->
      designer_dir d n = d ++ [Path.sep]
      /\ image_file d n = d ++ [Path.sep] ++ py ".png"
      /\ info_file d n = d ++ [Path.sep] ++ py "info.pb"
      /\ bio_file d n = d ++ [Path.sep] ++ py "bio.html").
Proof.
  intros Hblank.
  assert (designer_dir_name n = []) as Hkey.
  { rewrite designer_dir_name_filter.
    induction (str_lower n) as [|c l IH]; [done|].
    rewrite filter_cons_False.
    - apply IH. intros x Hx. apply Hblank. by right.
    - intros [H32 H45]. destruct (Hblank c ltac:(left)); done. }
  split; [done|]. intros Hd Hl.
  assert (designer_dir d n = d ++ [Path.sep]) as Hdd.
  { unfold designer_dir. rewrite Hkey, join_plain by done. done. }
  unfold image_file, info_file, bio_file. rewrite Hdd, Hkey.
  split; [done|].
  assert (forall b, Str.startswith b [Path.sep] = false ->
                    Path.join (d ++ [Path.sep]) b = d ++ [Path.sep] ++ b)
    as Hjoin.
  { intros b Hb.
    destruct (join_cases (d ++ [Path.sep]) b Hb)
      as [[Hnil _]|[(a' & Ha' & ->)|(_ & Hlast & _)]].
    - by destruct d.
    - by apply app_inj_tail in Ha' as [<- _].
    - destruct Hlast. by rewrite last_snoc. }
  split; [by apply Hjoin|]. split; by apply Hjoin.
Qed.


End Edges.

Lemma designer_dir_name_blank_witness :
  designer_dir_name (py " - ") = []
  /\ image_file (py "cat") (py " - ") = py "cat/.png".
Proof.
  destruct (designer_dir_name_blank (py "cat") (py " - ")) as [Hkey Hpaths].
  - intros c Hc. vm_compute in Hc.
    apply elem_of_cons in Hc as [->|Hc]; [by left|].
    apply elem_of_cons in Hc as [->|Hc]; [by right|].
    apply elem_of_cons in Hc as [->|Hc]; [by left|].
    by apply elem_of_nil in Hc.
  - split; [exact Hkey|].
    destruct Hpaths as (_ & Hav & _); [done|vm_compute; discriminate|].
    rewrite Hav. reflexivity.
Defined.


(** ** [main] with a spreadsheet *)

Section MainSpreadsheet.
Context `{Unicode} `{Pillow} `{Host} `{TextFormat} `{Pandas}.

(** X13. With the [--spreadsheet] option and a row whose [Bio] and [Link]
    cells are text, [main] is [make_designer] on the biography and on
    [parse_urls] of the links.  When the [Link] cell holds a value that is
    not text and counts as true (the [nan] the reader gives for an empty
    cell), [parse_urls] raises [AttributeError] and [main] ends before
    anything is printed or written; an exception of the reader ends [main]
    in the same way. *)
Theorem main_with_spreadsheet (args : Namespace) (path : pystr) (w : world) :
  spreadsheet args = Some path -> path <> [] ->
  (forall bio link,
     read_entry path (arg_name args) w = Ok (VStr bio, VStr link) ->
     main args w
     = make_designer (designers_directory args) (arg_name args)
         (arg_img_path args) (Some bio) (Some (parse_urls link)) w)
  /\ (forall bio shown,
        read_entry path (arg_name args) w = Ok (bio, VOther true shown) ->
        main args w = (Raise AttributeError, w))
  /\ (forall e,
        read_entry path (arg_name args) w = Raise e ->
        main args w = (Raise e, w)).
Proof.
  intros Hs Hpath. destruct path as [|c path]; [done|].
  assert (forall entry,
            read_entry (c :: path) (arg_name args) w = Ok entry ->
            main_locals args w
            = bind (fun w0 => (Ok entry, w0))
                (fun entry =>
                   if truth_value (snd entry)
                   then bind (lift (parse_urls_value (snd entry)))
                          (fun urls =>
                             ret (<["urls" := urls]>
                                    (<["urls" := snd entry]>
                                       (<["bio" := fst entry]> ∅))))
                   else ret (<["urls" := snd entry]>
                               (<["bio" := fst entry]> ∅))) w) as Hlocals.
  { intros entry Hread. unfold main_locals. rewrite Hs.
    change (truthy (Some (c :: path))) with true. cbv iota.
    change (default [] (Some (c :: path))) with (c :: path).
    unfold bind at 1 3. by rewrite Hread. }
  split; [|split].
  - intros bio link Hread. specialize (Hlocals _ Hread).
    unfold main. destruct link as [|x link].
    + erewrite bind_run by (rewrite Hlocals; reflexivity).
      cbn [fst snd]. unfold load. rewrite lookup_insert_ne by done.
      rewrite lookup_insert_eq. run. rewrite lookup_insert_eq. run.
      reflexivity.
    + erewrite bind_run by (rewrite Hlocals; reflexivity).
      cbn [fst snd]. unfold load. rewrite !lookup_insert_ne by done.
      rewrite lookup_insert_eq. run. rewrite lookup_insert_eq. run.
      reflexivity.
  - intros bio shown Hread. specialize (Hlocals _ Hread).
    unfold main. erewrite bind_raise; [reflexivity|].
    rewrite Hlocals. reflexivity.
  - intros e Hread. unfold main. erewrite bind_raise; [reflexivity|].
    unfold main_locals. rewrite Hs.
    change (truthy (Some (c :: path))) with true. cbv iota.
    change (default [] (Some (c :: path))) with (c :: path).
    unfold bind. by rewrite Hread.
Qed.

End MainSpreadsheet.

Lemma main_with_spreadsheet_witness :
  @main _ _ _ _ demo_sheet
    {| designers_directory := py "cat"; arg_name := py "A";
       arg_img_path := py "pic.jpg"; spreadsheet := Some (py "sheet.xlsx") |}
    demo_world
  = make_designer (py "cat") (py "A") (py "pic.jpg") (Some (py "Hello"))
      (Some [py "https://example.com"; py "https://foo.org"]) demo_world
  /\ @main _ _ _ _ demo_sheet_no_link
       {| designers_directory := py "cat"; arg_name := py "A";
          arg_img_path := py "pic.jpg"; spreadsheet := Some (py "sheet.xlsx") |}
       demo_world
     = (Raise AttributeError, demo_world).
Proof.
  split.
  - apply (proj1 (@main_with_spreadsheet _ _ _ _ demo_sheet
                    {| designers_directory := py "cat"; arg_name := py "A";
                       arg_img_path := py "pic.jpg";
                       spreadsheet := Some (py "sheet.xlsx") |}
                    (py "sheet.xlsx") demo_world eq_refl ltac:(done))
             (py "Hello") (py "example.com foo.org")).
    reflexivity.
  - apply (proj1 (proj2 (@main_with_spreadsheet _ _ _ _ demo_sheet_no_link
                           {| designers_directory := py "cat";
                              arg_name := py "A";
                              arg_img_path := py "pic.jpg";
                              spreadsheet := Some (py "sheet.xlsx") |}
                           (py "sheet.xlsx") demo_world eq_refl ltac:(done)))
             (VStr (py "Hello")) (py "nan")).
    reflexivity.
Defined.
